(** * Product API (server.js): a shallow embedding and its verified properties

    The Express application of [server.js] keeps one in-memory array of
    products and serves it through eight routes.  This development embeds
    the middleware functions and the route handlers as Rocq functions over
    an explicit store (a [list product], in insertion order) and proves the
    properties of the request pipeline, of the query engine (filters,
    pagination, search) and of the statistics reducer.

    Modelling conventions.
    - JavaScript strings are [string]s whose characters are the code units
      below 256 (Latin-1); [trim], [toLowerCase] and [includes] follow
      ECMAScript on that range.
    - The numbers of the pagination are integral doubles: a [number] is
      an integer that a double represents or an infinity, [NaN] is [None],
      and an integer result is rounded to the nearest double
      ([roundDouble]).
    - A price is a finite double, written as the rational [Q] that it is;
      the statistics add and divide prices with rounding to the nearest
      double ([roundQ]).  An infinite price (the JSON number [1e999]) is
      outside the model.
    - A property of [req.query] is a string, an array or an object
      ([qvalue]), as the query-string parser of Express builds them.
    - [undefined] is [None]; a value decoded from a JSON body is a [value].
    - [uuidv4()] is an input of the create handler (the generated id). *)

From Stdlib Require Import ZArith QArith Qround Ascii String List Bool Lia Lqa.
From stdpp Require Import base option list strings gmap.

Local Open Scope string_scope.

(** The expected type of [Some x] is used before [x] is typed, so that a
    string or an integer is read as a query value or a number where one
    is expected. *)
#[local] Arguments Some {A} & a.

(** ** JavaScript primitives used by the server *)

Module JS.

(** ECMAScript WhiteSpace and LineTerminator code units below 256:
    TAB, LF, VT, FF, CR, SPACE and NO-BREAK SPACE. *)
Definition isWhiteSpace (c : ascii) : bool :=
  let n := N_of_ascii c in
  (((9 <=? n) && (n <=? 13)) || (n =? 32) || (n =? 160))%N.

(** [String.prototype.trimStart] *)
Fixpoint trimStart (s : string) : string :=
  match s with
  | EmptyString => EmptyString
  | String c s' => if isWhiteSpace c then trimStart s' else s
  end.

(** [String.prototype.trimEnd] *)
Fixpoint trimEnd (s : string) : string :=
  match s with
  | EmptyString => EmptyString
  | String c s' =>
      match trimEnd s' with
      | EmptyString => if isWhiteSpace c then EmptyString else String c EmptyString
      | t => String c t
      end
  end.

(** [String.prototype.trim] *)
Definition trim (s : string) : string := trimEnd (trimStart s).

(** Lower-case mapping of one code unit: A-Z, and the Latin-1 capitals
    U+00C0-U+00DE except the multiplication sign U+00D7. *)
Definition lowerChar (c : ascii) : ascii :=
  let n := N_of_ascii c in
  if (((65 <=? n) && (n <=? 90)) || ((192 <=? n) && (n <=? 214))
      || ((216 <=? n) && (n <=? 222)))%N
  then ascii_of_N (n + 32) else c.

(** [String.prototype.toLowerCase] *)
Fixpoint toLowerCase (s : string) : string :=
  match s with
  | EmptyString => EmptyString
  | String c s' => String (lowerChar c) (toLowerCase s')
  end.

(** [s.startsWith(t)] *)
Fixpoint startsWith (s t : string) {struct t} : bool :=
  match t, s with
  | EmptyString, _ => true
  | String _ _, EmptyString => false
  | String b t', String a s' => Ascii.eqb a b && startsWith s' t'
  end.

(** [String.prototype.includes]: [t] occurs in [s] at some position. *)
Fixpoint includes (s t : string) : bool :=
  startsWith s t ||
  match s with
  | EmptyString => false
  | String _ s' => includes s' t
  end.

(** The [===] of two strings. *)
Definition strictEq (s t : string) : bool := String.eqb s t.

(** Value of a digit character in the radixes of [parseInt]. *)
Definition digitValue (c : ascii) : option Z :=
  let n := Z.of_N (N_of_ascii c) in
  if ((48 <=? n) && (n <=? 57))%Z then Some (n - 48)%Z
  else if ((97 <=? n) && (n <=? 122))%Z then Some (n - 87)%Z
  else if ((65 <=? n) && (n <=? 90))%Z then Some (n - 55)%Z
  else None.

(** An integral JavaScript number other than [NaN]: an integer (one that
    a double represents, after [roundDouble]) or an infinity. *)
Inductive number := Int (z : Z) | Infinity (negative : bool).

Coercion Int : Z >-> number.

(** The double nearest to the integer [z], ties to the even mantissa:
    integers of at most 53 bits are exact, longer ones keep their 53
    leading bits, and a result of magnitude [2^1024] or more is an
    infinity. *)
Definition roundDouble (z : Z) : number :=
  let a := Z.abs z in
  let e := Z.log2 a in
  let r :=
    if (e <=? 52)%Z then a
    else
      let s := (e - 52)%Z in
      let q := Z.shiftr a s in
      let rest := Z.land a (Z.ones s) in
      let half := Z.shiftl 1 (s - 1) in
      let up := ((half <? rest) || ((rest =? half) && Z.odd q))%Z in
      Z.shiftl (if up then q + 1 else q)%Z s in
  if (Z.shiftl 1 1024 <=? r)%Z then Infinity (z <? 0)%Z
  else Int (Z.sgn z * r).

(** [x - y] and [x * y] on numbers; [None] is [NaN]. *)
Definition sub (x y : option number) : option number :=
  match x, y with
  | Some (Int a), Some (Int b) => Some (roundDouble (a - b))
  | Some (Infinity s), Some (Int _) => Some (Infinity s)
  | Some (Int _), Some (Infinity s) => Some (Infinity (negb s))
  | Some (Infinity s), Some (Infinity t) =>
      if Bool.eqb s t then None else Some (Infinity s)
  | _, _ => None
  end.

Definition mul (x y : option number) : option number :=
  match x, y with
  | Some (Int a), Some (Int b) => Some (roundDouble (a * b))
  | Some (Infinity s), Some (Int b) | Some (Int b), Some (Infinity s) =>
      if (b =? 0)%Z then None else Some (Infinity (xorb s (b <? 0)%Z))
  | Some (Infinity s), Some (Infinity t) => Some (Infinity (xorb s t))
  | _, _ => None
  end.

(** [x < y] on numbers; a comparison with [NaN] is false. *)
Definition ltb (x y : option number) : bool :=
  match x, y with
  | Some (Int a), Some (Int b) => (a <? b)%Z
  | Some (Int _), Some (Infinity s) => negb s
  | Some (Infinity s), Some (Int _) => s
  | Some (Infinity s), Some (Infinity t) => s && negb t
  | _, _ => false
  end.

(** The longest prefix of radix-[radix] digits, read as an integer;
    [acc] is [None] until a digit has been read. *)
Fixpoint parseDigits (radix : Z) (s : string) (acc : option Z) : option Z :=
  match s with
  | EmptyString => acc
  | String c s' =>
      match digitValue c with
      | Some d =>
          if (d <? radix)%Z
          then parseDigits radix s' (Some (radix * default 0 acc + d)%Z)
          else acc
      | None => acc
      end
  end.

(** [ToString] of a string that may be [undefined]. *)
Definition ToString (v : option string) : string := default "undefined" v.

(** A property of [req.query]: the query-string parser gives a string, an
    array for a repeated parameter, or an object for a bracketed one. *)
#[local] Set Warnings "-register-all".
Inductive qvalue :=
| QStr (s : string)
| QArr (l : list qvalue)
| QObj (l : list (string * qvalue)).
#[local] Set Warnings "+register-all".

Coercion QStr : string >-> qvalue.

(** [ToString] of a query value: an array is the list of its elements
    separated by commas, an object is [[object Object]]. *)
Fixpoint qToString (v : qvalue) : string :=
  match v with
  | QStr s => s
  | QArr l =>
      (fix join (l : list qvalue) : string :=
         match l with
         | [] => ""
         | x :: l' =>
             match l' with
             | [] => qToString x
             | _ => qToString x ++ "," ++ join l'
             end
         end) l
  | QObj _ => "[object Object]"
  end.

Definition queryToString (v : option qvalue) : string :=
  match v with
  | Some x => qToString x
  | None => "undefined"
  end.

(** The truthiness of a query value that may be [undefined]: only
    [undefined] and the empty string are falsy. *)
Definition queryTruthy (v : option qvalue) : bool :=
  match v with
  | None => false
  | Some (QStr s) => negb (String.eqb s "")
  | Some _ => true
  end.

(** [v === s] for a query value [v] and a string [s]. *)
Definition queryIs (v : qvalue) (s : string) : bool :=
  match v with
  | QStr t => String.eqb t s
  | _ => false
  end.

(** [parseInt(v)] with no radix argument: leading white space, a sign, an
    optional [0x]/[0X] prefix, then digits; the integer read is rounded
    to a double.  [None] is [NaN]. *)
Definition parseInt (v : option qvalue) : option number :=
  let s1 := trimStart (queryToString v) in
  let '(sign, s2) :=
    match s1 with
    | String "-" r => ((-1)%Z, r)
    | String "+" r => (1%Z, r)
    | _ => (1%Z, s1)
    end in
  let '(radix, s3) :=
    match s2 with
    | String "0" (String x r) =>
        if (Ascii.eqb x "x" || Ascii.eqb x "X")%char then (16%Z, r) else (10%Z, s2)
    | _ => (10%Z, s2)
    end in
  (fun n => roundDouble (sign * n)) <$> parseDigits radix s3 None.

(** [n || d] for a number [n]: [NaN] and zero are falsy. *)
Definition orDefault (n : option number) (d : number) : number :=
  match n with
  | Some (Int z) => if (z =? 0)%Z then d else Int z
  | Some (Infinity s) => Infinity s
  | None => d
  end.

(** The index that [slice] makes of an argument, for an array of length
    [len]: [NaN] is 0, a negative index counts from the end, and the
    result is clamped to [0 .. len]. *)
Definition clampIndex (len : Z) (i : option number) : Z :=
  match i with
  | None => 0
  | Some (Int z) => if (z <? 0)%Z then Z.max (len + z) 0 else Z.min z len
  | Some (Infinity true) => 0
  | Some (Infinity false) => len
  end.

(** [Array.prototype.slice(start, end)] *)
Definition slice {A} (start end_ : option number) (l : list A) : list A :=
  let len := Z.of_nat (length l) in
  let k := clampIndex len start in
  let final := clampIndex len end_ in
  take (Z.to_nat (final - k)) (drop (Z.to_nat k) l).

(** [Array.prototype.findIndex]; [None] is the JavaScript [-1]. *)
Fixpoint findIndex {A} (f : A -> bool) (l : list A) : option nat :=
  match l with
  | [] => None
  | x :: l' => if f x then Some 0 else S <$> findIndex f l'
  end.

(** [x < y] on numbers. *)
Definition Qltb (x y : Q) : bool := negb (Qle_bool y x).

(** A double as [reduce] computes with it: a finite value, written as the
    rational that it is, an infinity or NaN. *)
Inductive double := Finite (q : Q) | Inf (negative : bool) | NaN.

(** The integer nearest to [n / d], for a positive [d]; of two equally
    near ones, the even one. *)
Definition roundHalfEven (n d : Z) : Z :=
  let fl := (n / d)%Z in
  match (2 * (n mod d) ?= d)%Z with
  | Lt => fl
  | Gt => (fl + 1)%Z
  | Eq => if Z.even fl then fl else (fl + 1)%Z
  end.

(** The double nearest to a rational (IEEE 754 binary64, round to nearest,
    ties to even): 53 significant bits, exponents down to [-1074] with
    gradual underflow, and an infinity from [2^1024] on. *)
Definition roundQ (q : Q) : double :=
  let n := Qnum (Qred q) in
  let d := Zpos (Qden (Qred q)) in
  if (n =? 0)%Z then Finite 0
  else
    let a := Z.abs n in
    let scaled e := (a * 2 ^ Z.max 0 (- e), d * 2 ^ Z.max 0 e)%Z in
    let e0 := (Z.log2 a - Z.log2 d - 52)%Z in
    let e1 :=
      if (2 ^ 52 * snd (scaled e0) <=? fst (scaled e0))%Z
      then e0 else (e0 - 1)%Z in
    let e := Z.max e1 (-1074) in
    let m := roundHalfEven (fst (scaled e)) (snd (scaled e)) in
    if (0 <=? e)%Z && (2 ^ 1024 <=? m * 2 ^ e)%Z then Inf (n <? 0)%Z
    else Finite (Qred (Qmake (Z.sgn n * m * 2 ^ Z.max 0 e)
                             (Z.to_pos (2 ^ Z.max 0 (- e))))).

(** [x + y] for a double [x] and a finite [y]. *)
Definition fadd (x : double) (y : Q) : double :=
  match x with
  | Finite a => roundQ (a + y)
  | other => other
  end.

(** [x / n] for a double [x] and the length [n] of an array. *)
Definition fdiv (x : double) (n : nat) : double :=
  match x, n with
  | Finite a, O => if Qeq_bool a 0 then NaN else Inf (Qltb a 0)
  | Finite a, S _ => roundQ (a / inject_Z (Z.of_nat n))
  | other, _ => other
  end.

(** [Math.ceil(a / b)] for the length [a] of an array and a number [b]:
    the double quotient, rounded up.  The quotient by an infinity is 0
    and the quotient by 0 is an infinity, or [NaN] ([None]) for [0 / 0]. *)
Definition ceilDiv (a : Z) (b : number) : option number :=
  match b with
  | Infinity _ => Some (Int 0)
  | Int b =>
      if (b =? 0)%Z
      then if (a =? 0)%Z then None else Some (Infinity (a <? 0)%Z)
      else match roundQ (inject_Z a / inject_Z b) with
           | Finite q => Some (Int (Qceiling q))
           | Inf s => Some (Infinity s)
           | NaN => None
           end
  end.

(** Value of a hexadecimal digit. *)
Definition hexValue (c : ascii) : option N :=
  let n := N_of_ascii c in
  if ((48 <=? n) && (n <=? 57))%N then Some (n - 48)%N
  else if ((97 <=? n) && (n <=? 102))%N then Some (n - 87)%N
  else if ((65 <=? n) && (n <=? 70))%N then Some (n - 55)%N
  else None.

(** [decodeURIComponent]; [None] is a thrown [URIError].  An escape is a
    percent sign and two hexadecimal digits; the escaped bytes are read
    as UTF-8: a byte below 128 is its character, and the lead bytes C2
    and C3 with one continuation byte give the characters U+0080 to
    U+00FF.  A malformed escape or byte sequence throws.  The longer
    sequences decode to characters above U+00FF, which the strings of
    this model do not have: they are answered like a malformed one. *)
Fixpoint decodeURIComponent (s : string) : option string :=
  match s with
  | EmptyString => Some EmptyString
  | String c s1 =>
      if Ascii.eqb c "%"
      then
        match s1 with
        | String x (String y s2) =>
            match hexValue x, hexValue y with
            | Some h, Some l =>
                let b := (16 * h + l)%N in
                if (b <? 128)%N
                then String (ascii_of_N b) <$> decodeURIComponent s2
                else if ((b =? 194) || (b =? 195))%N
                then
                  match s2 with
                  | String p (String u (String v s3)) =>
                      match Ascii.eqb p "%", hexValue u, hexValue v with
                      | true, Some h', Some l' =>
                          let b' := (16 * h' + l')%N in
                          if ((128 <=? b') && (b' <? 192))%N
                          then String (ascii_of_N ((b - 192) * 64 + (b' - 128)))
                                 <$> decodeURIComponent s3
                          else None
                      | _, _, _ => None
                      end
                  | _ => None
                  end
                else None
            | _, _ => None
            end
        | _ => None
        end
      else String c <$> decodeURIComponent s1
  end.

(** What [Function.prototype.toString] gives for a built-in function. *)
Definition nativeFunction (name : string) : string :=
  "function " ++ name ++ "() { [native code] }".

(** The properties that a plain object inherits from [Object.prototype],
    as the text that [+] makes of their values. *)
Definition inheritedText (key : string) : option string :=
  if String.eqb key "__proto__" then Some "[object Object]"
  else if String.eqb key "constructor" then Some (nativeFunction "Object")
  else if existsb (String.eqb key)
            ["hasOwnProperty"; "isPrototypeOf"; "propertyIsEnumerable";
             "toLocaleString"; "toString"; "valueOf";
             "__defineGetter__"; "__defineSetter__";
             "__lookupGetter__"; "__lookupSetter__"]
  then Some (nativeFunction key)
  else None.

End JS.

Import JS.

(** ** Data model *)

(** A value decoded from a JSON request body. *)
#[local] Set Warnings "-register-all".
Inductive value :=
| VNull
| VBool (b : bool)
| VNum (q : Q)
| VStr (s : string)
| VArr (l : list value)
| VObj (l : list (string * value)).
#[local] Set Warnings "+register-all".

Inductive jstype := TUndefined | TObject | TBoolean | TNumber | TString.

Definition jstype_eqb (a b : jstype) : bool :=
  match a, b with
  | TUndefined, TUndefined | TObject, TObject | TBoolean, TBoolean
  | TNumber, TNumber | TString, TString => true
  | _, _ => false
  end.

(** [typeof v]; [None] is [undefined]. *)
Definition typeof (v : option value) : jstype :=
  match v with
  | None => TUndefined
  | Some VNull | Some (VArr _) | Some (VObj _) => TObject
  | Some (VBool _) => TBoolean
  | Some (VNum _) => TNumber
  | Some (VStr _) => TString
  end.

(** [Boolean(v)], the truthiness that [!v] negates. *)
Definition Boolean (v : option value) : bool :=
  match v with
  | None | Some VNull => false
  | Some (VBool b) => b
  | Some (VNum q) => negb (Qeq_bool q 0)
  | Some (VStr s) => negb (String.eqb s "")
  | Some (VArr _) | Some (VObj _) => true
  end.

(** The five properties that the handlers read from [req.body]. *)
Record body := {
  body_name : option value;
  body_description : option value;
  body_price : option value;
  body_category : option value;
  body_inStock : option value
}.

Record product := {
  id : string;
  name : string;
  description : string;
  price : Q;
  category : string;
  inStock : bool
}.

(** The sample in-memory products database. *)
Definition seed : list product := [
  {| id := "1"; name := "Laptop";
     description := "High-performance laptop with 16GB RAM";
     price := 1200; category := "electronics"; inStock := true |};
  {| id := "2"; name := "Smartphone";
     description := "Latest model with 128GB storage";
     price := 800; category := "electronics"; inStock := true |};
  {| id := "3"; name := "Coffee Maker";
     description := "Programmable coffee maker with timer";
     price := 50; category := "kitchen"; inStock := false |};
  {| id := "4"; name := "Gaming Chair";
     description := "Ergonomic gaming chair with lumbar support";
     price := 300; category := "furniture"; inStock := true |};
  {| id := "5"; name := "Wireless Headphones";
     description := "Noise-cancelling wireless headphones";
     price := 150; category := "electronics"; inStock := true |}
].

(** The request method; [OtherMethod] carries any other method name. *)
Inductive method := GET | HEAD | POST | PUT | DELETE | OtherMethod (m : string).

Definition method_eqb (a b : method) : bool :=
  match a, b with
  | GET, GET | HEAD, HEAD | POST, POST | PUT, PUT | DELETE, DELETE => true
  | OtherMethod x, OtherMethod y => String.eqb x y
  | _, _ => false
  end.

Definition method_name (m : method) : string :=
  match m with
  | GET => "GET" | HEAD => "HEAD" | POST => "POST" | PUT => "PUT"
  | DELETE => "DELETE"
  | OtherMethod s => s
  end.

(** The properties of [req.query] that the handlers read. *)
Record query := {
  query_category : option qvalue;
  query_inStock : option qvalue;
  query_page : option qvalue;
  query_limit : option qvalue;
  query_q : option qvalue
}.

(** One segment of the request path: the text between two slashes, and
    what [decodeURIComponent] makes of it, [None] when it throws a
    [URIError].  The routes read the decoded text from the segment, so
    that the statements hold for any decoding; the sample requests take
    it from [decodeURIComponent] ([plain]). *)
Record pathSegment := { raw : string; decoded : option string }.

(** The segment with the text [s]. *)
Definition plain (s : string) : pathSegment :=
  {| raw := s; decoded := decodeURIComponent s |}.

(** A request as the routes receive it: the path is split at its slashes
    ([/api/products/] has the segments [api], [products] and an empty
    one), [x_api_key] is [req.headers['x-api-key']] and [req_body] is the
    body decoded by the JSON body parser. *)
Record request := {
  req_method : method;
  req_path : list pathSegment;
  originalUrl : string;
  req_query : query;
  x_api_key : option string;
  req_body : body
}.

Record pagination := {
  currentPage : number;
  totalPages : option number;
  totalProducts : nat;
  productsPerPage : number;
  hasNextPage : bool;
  hasPrevPage : bool
}.

Module Stats.
Record priceRange := { min : option Q; max : option Q }.
(** An entry of [byCategory]: a count, or the text that [+ 1] makes of
    an inherited property. *)
Inductive entry := Count (n : nat) | Text (s : string).
Record t := {
  total : nat;
  byCategory : gmap string entry;
  inStock : nat;
  outOfStock : nat;
  totalValue : double;
  range : priceRange;
  averagePrice : double
}.
End Stats.

(** The JSON documents that the server sends. *)
Inductive json :=
| ErrorBody (error : string)
| ErrorMessageBody (error message : string)
| ValidationBody (error : string) (details : list string)
| WelcomeBody
| ProductsBody (products : list product) (pg : pagination)
| SearchBody (searchTerm : string) (results : list product) (count : nat)
| StatsBody (s : Stats.t)
| ProductBody (p : product)
| MessageBody (message : string) (p : product).

Record response := { status : nat; payload : json }.

(** Custom error classes, and the [TypeError] and [URIError] of the
    runtime. *)
Inductive error :=
| NotFoundError (message : string)
| ValidationError (message : string)
| TypeError
| URIError.

(** What a route handler does: it sends a response or throws; a throw is
    passed to the error-handling middleware by [asyncHandler]. *)
Inductive outcome := Sent (r : response) | Thrown (e : error).

(** ** Middleware *)

(** A middleware answers ([Some]) or calls [next()] ([None]). *)
Definition middleware := request -> option response.

Definition secret : string := "your-secret-api-key".

Definition unauthorized_message : string :=
  "Unauthorized: Invalid or missing API key. Include x-api-key header.".

(** [!apiKey || apiKey !== 'your-secret-api-key'] *)
Definition authMiddleware : middleware := fun req =>
  let apiKey := x_api_key req in
  if match apiKey with
     | None => true
     | Some k => String.eqb k "" || negb (strictEq k secret)
     end
  then Some {| status := 401; payload := ErrorBody unauthorized_message |}
  else None.

(** The test applied to [name], [description] and [category]:
    [!v || typeof v !== 'string' || v.trim().length === 0]. *)
Definition notNonEmptyString (v : option value) : bool :=
  negb (Boolean v) || negb (jstype_eqb (typeof v) TString) ||
  match v with
  | Some (VStr s) => Nat.eqb (String.length (trim s)) 0
  | _ => false
  end.

(** [price === undefined || typeof price !== 'number' || price <= 0] *)
Definition notPositiveNumber (v : option value) : bool :=
  jstype_eqb (typeof v) TUndefined || negb (jstype_eqb (typeof v) TNumber) ||
  match v with
  | Some (VNum q) => Qle_bool q 0
  | _ => false
  end.

(** [inStock !== undefined && typeof inStock !== 'boolean'] *)
Definition notOptionalBoolean (v : option value) : bool :=
  negb (jstype_eqb (typeof v) TUndefined) && negb (jstype_eqb (typeof v) TBoolean).

(** The [errors] array that [validateProduct] builds, in push order. *)
Definition validationErrors (b : body) : list string :=
  (if notNonEmptyString (body_name b)
   then ["Name is required and must be a non-empty string"] else []) ++
  (if notNonEmptyString (body_description b)
   then ["Description is required and must be a non-empty string"] else []) ++
  (if notPositiveNumber (body_price b)
   then ["Price is required and must be a positive number"] else []) ++
  (if notNonEmptyString (body_category b)
   then ["Category is required and must be a non-empty string"] else []) ++
  (if notOptionalBoolean (body_inStock b)
   then ["inStock must be a boolean value"] else []).

Definition validateProduct : middleware := fun req =>
  let errors := validationErrors (req_body req) in
  if (0 <? length errors)%nat
  then Some {| status := 400;
               payload := ValidationBody "Validation failed" errors |}
  else None.

(** ** Route handlers *)

(** [req.params], filled by the route that matched. *)
Definition params := list (string * string).

Definition param (k : string) (ps : params) : option string :=
  snd <$> List.find (fun kv => String.eqb (fst kv) k) ps.

(** [p.id === req.params.id] *)
Definition hasId (i : option string) (p : product) : bool :=
  match i with
  | Some s => strictEq (id p) s
  | None => false
  end.

Definition notFoundMessage (i : option string) : string :=
  "Product with ID " ++ ToString i ++ " not found".

(** A handler reads the matched parameters, the request and the id that
    [uuidv4()] would return, and runs on the products array. *)
Definition handler :=
  params -> request -> string -> list product -> outcome * list product.

(** GET / *)
Definition root : handler := fun _ _ _ products =>
  (Sent {| status := 200; payload := WelcomeBody |}, products).

(** The callback of the category filter calls
    [req.query.category.toLowerCase()], which throws a [TypeError] when
    the parameter is an array or an object; the callback runs as soon as
    the array has a product. *)
Definition categoryThrows (c : option qvalue) (items : list product) : bool :=
  match c, items with
  | Some (QArr _), _ :: _ | Some (QObj _), _ :: _ => true
  | _, _ => false
  end.

(** Filter by category: skipped when [req.query.category] is falsy.  For
    an array or object parameter the filter returns normally only on the
    empty array (see [categoryThrows]). *)
Definition filterByCategory (c : option qvalue) (items : list product) : list product :=
  match c with
  | Some (QStr c) =>
      if negb (String.eqb c "")
      then List.filter
             (fun p => strictEq (toLowerCase (category p)) (toLowerCase c)) items
      else items
  | Some _ => items
  | None => items
  end.

(** Filter by inStock status: skipped when [req.query.inStock] is
    [undefined]. *)
Definition filterByStock (flag : option qvalue) (items : list product) : list product :=
  match flag with
  | Some v =>
      let inStockFilter := queryIs v "true" in
      List.filter (fun p => Bool.eqb (inStock p) inStockFilter) items
  | None => items
  end.

(** The [filteredProducts] array when pagination starts. *)
Definition filteredProducts (q : query) (products : list product) : list product :=
  filterByStock (query_inStock q) (filterByCategory (query_category q) products).

(** GET /api/products *)
Definition getProducts : handler := fun _ req _ products =>
  let q := req_query req in
  if categoryThrows (query_category q) products
  then (Thrown TypeError, products)
  else
    let filtered := filteredProducts q products in
    let page := orDefault (parseInt (query_page q)) 1%Z in
    let limit := orDefault (parseInt (query_limit q)) 10%Z in
    if ltb (Some page) (Some (Int 1)) || ltb (Some limit) (Some (Int 1))
    then (Sent {| status := 400;
                  payload := ErrorBody "Page and limit must be positive integers" |},
          products)
    else
      let startIndex := mul (sub (Some page) (Some (Int 1))) (Some limit) in
      let endIndex := mul (Some page) (Some limit) in
      let paginatedProducts := slice startIndex endIndex filtered in
      (Sent {| status := 200;
               payload := ProductsBody paginatedProducts
                 {| currentPage := page;
                    totalPages := ceilDiv (Z.of_nat (length filtered)) limit;
                    totalProducts := length filtered;
                    productsPerPage := limit;
                    hasNextPage :=
                      ltb endIndex (Some (Int (Z.of_nat (length filtered))));
                    hasPrevPage := ltb (Some (Int 1)) (Some page) |} |},
       products).

(** The double-quote character, and the message of a missing [q]. *)
Definition dquote : string := String (ascii_of_nat 34) EmptyString.

Definition missingQueryMessage : string :=
  "Search query parameter " ++ dquote ++ "q" ++ dquote ++ " is required".

(** The predicate of the search filter for the lower-cased term. *)
Definition matchesTerm (searchTerm : string) (p : product) : bool :=
  includes (toLowerCase (name p)) searchTerm ||
  includes (toLowerCase (description p)) searchTerm.

(** GET /api/products/search.  An array or an object as [q] is truthy and
    has no [toLowerCase] method: the call throws a [TypeError]. *)
Definition searchProducts : handler := fun _ req _ products =>
  match query_q (req_query req) with
  | Some (QStr q) =>
      if String.eqb q ""
      then (Sent {| status := 400;
                    payload := ErrorBody missingQueryMessage |},
            products)
      else
        let searchTerm := toLowerCase q in
        let searchResults := List.filter (matchesTerm searchTerm) products in
        (Sent {| status := 200;
                 payload := SearchBody q searchResults (length searchResults) |},
         products)
  | Some _ => (Thrown TypeError, products)
  | None =>
      (Sent {| status := 400;
               payload := ErrorBody missingQueryMessage |},
       products)
  end.

(** [!m] for a bound of the price range: [null] and zero are falsy. *)
Definition unset (m : option Q) : bool :=
  match m with
  | None => true
  | Some q => Qeq_bool q 0
  end.

(** [(acc.byCategory[c] || 0) + 1]: an own entry counts on (a text grows
    by the character 1), an inherited property gives its text followed by
    1, and a fresh key starts at 1. *)
Definition countedOnce (m : gmap string Stats.entry) (c : string) : Stats.entry :=
  match m !! c with
  | Some (Stats.Count n) => Stats.Count (n + 1)
  | Some (Stats.Text s) => Stats.Text (s ++ "1")
  | None =>
      match inheritedText c with
      | Some s => Stats.Text (s ++ "1")
      | None => Stats.Count 1
      end
  end.

(** [acc.byCategory[c] = v]: the setter of [__proto__] ignores a value
    that is not an object. *)
Definition assignEntry (m : gmap string Stats.entry) (c : string)
    (v : Stats.entry) : gmap string Stats.entry :=
  if String.eqb c "__proto__" then m else <[c := v]> m.

(** The reducer of GET /api/stats. *)
Definition statsStep (acc : Stats.t) (product : product) : Stats.t :=
  let c := category product in
  let lo := Stats.min (Stats.range acc) in
  let hi := Stats.max (Stats.range acc) in
  {| Stats.total := Stats.total acc;
     Stats.byCategory :=
       assignEntry (Stats.byCategory acc) c (countedOnce (Stats.byCategory acc) c);
     Stats.inStock :=
       if inStock product then S (Stats.inStock acc) else Stats.inStock acc;
     Stats.outOfStock :=
       if inStock product then Stats.outOfStock acc else S (Stats.outOfStock acc);
     Stats.totalValue := fadd (Stats.totalValue acc) (price product);
     Stats.range :=
       {| Stats.min :=
            if unset lo ||
               match lo with Some m => Qltb (price product) m | None => false end
            then Some (price product) else lo;
          Stats.max :=
            if unset hi ||
               match hi with Some m => Qltb m (price product) | None => false end
            then Some (price product) else hi |};
     Stats.averagePrice := Stats.averagePrice acc |}.

Definition statsInit (products : list product) : Stats.t :=
  {| Stats.total := length products;
     Stats.byCategory := ∅;
     Stats.inStock := 0;
     Stats.outOfStock := 0;
     Stats.totalValue := Finite 0;
     Stats.range := {| Stats.min := None; Stats.max := None |};
     Stats.averagePrice := Finite 0 |}.

(** [products.reduce(...)] followed by the assignment of [averagePrice]. *)
Definition computeStats (products : list product) : Stats.t :=
  let stats := fold_left statsStep products (statsInit products) in
  {| Stats.total := Stats.total stats;
     Stats.byCategory := Stats.byCategory stats;
     Stats.inStock := Stats.inStock stats;
     Stats.outOfStock := Stats.outOfStock stats;
     Stats.totalValue := Stats.totalValue stats;
     Stats.range := Stats.range stats;
     Stats.averagePrice :=
       if (0 <? Stats.total stats)%nat
       then fdiv (Stats.totalValue stats) (Stats.total stats)
       else Finite 0 |}.

(** GET /api/stats *)
Definition getStats : handler := fun _ _ _ products =>
  (Sent {| status := 200; payload := StatsBody (computeStats products) |}, products).

(** GET /api/products/:id *)
Definition getProductById : handler := fun ps _ _ products =>
  match List.find (hasId (param "id" ps)) products with
  | Some product => (Sent {| status := 200; payload := ProductBody product |}, products)
  | None => (Thrown (NotFoundError (notFoundMessage (param "id" ps))), products)
  end.

(** POST /api/products.  The destructuring default [inStock = true]
    applies when the property is [undefined].  [name.trim()] throws a
    [TypeError] on a value that is not a string; a body with such a value,
    or with a [price] that is not a number, is stopped by [validateProduct]
    before this handler runs (lemma [validated_fields]). *)
Definition createProduct : handler := fun _ req uuid products =>
  let b := req_body req in
  let inStock_ :=
    match body_inStock b with
    | None => Some (VBool true)
    | Some v => Some v
    end in
  match body_name b, body_description b, body_price b, body_category b with
  | Some (VStr name_), Some (VStr description_), Some (VNum price_),
    Some (VStr category_) =>
      let newProduct :=
        {| id := uuid;
           name := trim name_;
           description := trim description_;
           price := price_;
           category := toLowerCase (trim category_);
           inStock := Boolean inStock_ |} in
      (Sent {| status := 201;
               payload := MessageBody "Product created successfully" newProduct |},
       (products ++ [newProduct])%list)
  | _, _, _, _ => (Thrown TypeError, products)
  end.

(** PUT /api/products/:id.  The spread [...products[productIndex]] keeps
    the properties that are not overwritten, that is [id]. *)
Definition updateProduct : handler := fun ps req _ products =>
  match findIndex (hasId (param "id" ps)) products with
  | None => (Thrown (NotFoundError (notFoundMessage (param "id" ps))), products)
  | Some productIndex =>
      let b := req_body req in
      match products !! productIndex,
            body_name b, body_description b, body_price b, body_category b with
      | Some old, Some (VStr name_), Some (VStr description_), Some (VNum price_),
        Some (VStr category_) =>
          let updatedProduct :=
            {| id := id old;
               name := trim name_;
               description := trim description_;
               price := price_;
               category := toLowerCase (trim category_);
               inStock := Boolean (body_inStock b) |} in
          (Sent {| status := 200;
                   payload := MessageBody "Product updated successfully" updatedProduct |},
           <[productIndex := updatedProduct]> products)
      | _, _, _, _, _ => (Thrown TypeError, products)
      end
  end.

(** DELETE /api/products/:id: [products.splice(productIndex, 1)]. *)
Definition deleteProduct : handler := fun ps _ _ products =>
  match findIndex (hasId (param "id" ps)) products with
  | None => (Thrown (NotFoundError (notFoundMessage (param "id" ps))), products)
  | Some productIndex =>
      match products !! productIndex with
      | Some deletedProduct =>
          (Sent {| status := 200;
                   payload := MessageBody "Product deleted successfully" deletedProduct |},
           delete productIndex products)
      | None => (Thrown TypeError, products)
      end
  end.

(** The 404 handler for undefined routes. *)
Definition routeNotFound (req : request) : response :=
  {| status := 404;
     payload := ErrorMessageBody "Route not found"
       ("Cannot " ++ method_name (req_method req) ++ " " ++ originalUrl req) |}.

(** The global error-handling middleware. *)
Definition errorHandler (err : error) : response :=
  match err with
  | NotFoundError message => {| status := 404; payload := ErrorBody message |}
  | ValidationError message => {| status := 400; payload := ErrorBody message |}
  | TypeError | URIError =>
      {| status := 500;
         payload := ErrorMessageBody "Internal Server Error"
                      "Something went wrong on the server" |}
  end.

(** ** Route dispatch *)

(** One segment of a route path: a literal or a named parameter. *)
Inductive segment := Lit (s : string) | Param (k : string).

(** The outcome of matching one route path: no match, a match whose
    parameter cannot be decoded, or a match with its parameters. *)
Inductive matched := NoMatch | DecodeError | Match (ps : params).

(** Match a route path against the segments of the request path.
    Literals are compared without regard to case and a trailing slash is
    accepted (Express enables neither case-sensitive nor strict routing
    by default); a parameter takes one non-empty segment and is bound to
    its decoded text once the whole path has matched. *)
Fixpoint matchPath (pat : list segment) (path : list pathSegment) : matched :=
  match pat, path with
  | [], [] => Match []
  | [], [last] => if String.eqb (raw last) "" then Match [] else NoMatch
  | Lit s :: pat', x :: path' =>
      if String.eqb (toLowerCase (raw x)) (toLowerCase s)
      then matchPath pat' path' else NoMatch
  | Param k :: pat', x :: path' =>
      if String.eqb (raw x) "" then NoMatch
      else match matchPath pat' path' with
           | Match ps =>
               match decoded x with
               | Some v => Match ((k, v) :: ps)
               | None => DecodeError
               end
           | other => other
           end
  | _, _ => NoMatch
  end.

Inductive endpoint :=
| Root | ListProducts | SearchProducts | GetStats | GetProduct
| CreateProduct | UpdateProduct | DeleteProduct.

Record route := {
  route_method : method;
  route_path : list segment;
  route_middleware : list middleware;
  route_endpoint : endpoint
}.

(** The routes in the order in which [server.js] registers them. *)
Definition routes : list route := [
  {| route_method := GET; route_path := [];
     route_middleware := []; route_endpoint := Root |};
  {| route_method := GET; route_path := [Lit "api"; Lit "products"];
     route_middleware := []; route_endpoint := ListProducts |};
  {| route_method := GET; route_path := [Lit "api"; Lit "products"; Lit "search"];
     route_middleware := []; route_endpoint := SearchProducts |};
  {| route_method := GET; route_path := [Lit "api"; Lit "stats"];
     route_middleware := []; route_endpoint := GetStats |};
  {| route_method := GET; route_path := [Lit "api"; Lit "products"; Param "id"];
     route_middleware := []; route_endpoint := GetProduct |};
  {| route_method := POST; route_path := [Lit "api"; Lit "products"];
     route_middleware := [authMiddleware; validateProduct];
     route_endpoint := CreateProduct |};
  {| route_method := PUT; route_path := [Lit "api"; Lit "products"; Param "id"];
     route_middleware := [authMiddleware; validateProduct];
     route_endpoint := UpdateProduct |};
  {| route_method := DELETE; route_path := [Lit "api"; Lit "products"; Param "id"];
     route_middleware := [authMiddleware];
     route_endpoint := DeleteProduct |}
].

Definition handlerOf (e : endpoint) : handler :=
  match e with
  | Root => root
  | ListProducts => getProducts
  | SearchProducts => searchProducts
  | GetStats => getStats
  | GetProduct => getProductById
  | CreateProduct => createProduct
  | UpdateProduct => updateProduct
  | DeleteProduct => deleteProduct
  end.

(** A route handles the method it was registered for, and a GET route also
    handles HEAD. *)
Definition handlesMethod (r : route) (m : method) : bool :=
  method_eqb (route_method r) m ||
  (method_eqb (route_method r) GET && method_eqb m HEAD).

(** Where the router sends a request: to no route, to the error handler
    because a parameter of a matching path cannot be decoded, or to a
    route with its parameters. *)
Inductive dispatchResult := Unmatched | BadParam | Route (r : route) (ps : params).

(** The routes are tried in registration order.  The path is matched
    before the method: a path that matches with an undecodable parameter
    ends the search with an error whatever the method, and the first
    route whose path and method match takes the request. *)
Fixpoint dispatch (rs : list route) (m : method) (path : list pathSegment)
  : dispatchResult :=
  match rs with
  | [] => Unmatched
  | r :: rs' =>
      match matchPath (route_path r) path with
      | DecodeError => BadParam
      | Match ps => if handlesMethod r m then Route r ps else dispatch rs' m path
      | NoMatch => dispatch rs' m path
      end
  end.

(** Run the route-scoped middleware in order; the first one that answers
    ends the request. *)
Fixpoint runMiddleware (ms : list middleware) (req : request) : option response :=
  match ms with
  | [] => None
  | m :: ms' =>
      match m req with
      | Some r => Some r
      | None => runMiddleware ms' req
      end
  end.

(** One request through the routes, the catch-all and the error handler:
    the response and the products array afterwards. *)
Definition router (req : request) (uuid : string) (products : list product)
  : response * list product :=
  match dispatch routes (req_method req) (req_path req) with
  | Unmatched => (routeNotFound req, products)
  | BadParam => (errorHandler URIError, products)
  | Route r ps =>
      match runMiddleware (route_middleware r) req with
      | Some res => (res, products)
      | None =>
          match handlerOf (route_endpoint r) ps req uuid products with
          | (Sent res, products') => (res, products')
          | (Thrown err, products') => (errorHandler err, products')
          end
      end
  end.

(** The body-parsing stage in front of the routes: the JSON parser either
    decodes the body or raises a syntax error, which the middleware after
    it answers with status 400. *)
Inductive incoming := Decoded (req : request) | Malformed (req : request).

Definition app (i : incoming) (uuid : string) (products : list product)
  : response * list product :=
  match i with
  | Malformed _ => ({| status := 400; payload := ErrorBody "Invalid JSON format" |}, products)
  | Decoded req => router req uuid products
  end.

(** ** Vocabulary of the statements, and sample requests *)

(** [t] occurs in [s]. *)
Definition occursIn (t s : string) : Prop :=
  exists pre post : string, s = pre ++ t ++ post.

(** The request is dispatched to endpoint [e] with parameters [ps]. *)
Definition routed (req : request) (e : endpoint) (ps : params) : Prop :=
  exists r, dispatch routes (req_method req) (req_path req) = Route r ps
            /\ route_endpoint r = e.

(** The route-scoped middleware of each endpoint, as registered. *)
Definition guards (e : endpoint) : list middleware :=
  match e with
  | CreateProduct | UpdateProduct => [authMiddleware; validateProduct]
  | DeleteProduct => [authMiddleware]
  | _ => []
  end.

(** A query string without parameters, and a body without properties. *)
Definition noQuery : query :=
  {| query_category := None; query_inStock := None; query_page := None;
     query_limit := None; query_q := None |}.

Definition emptyBody : body :=
  {| body_name := None; body_description := None; body_price := None;
     body_category := None; body_inStock := None |}.

(** Sample requests are built with [mkRequest]; [withKey] supplies the
    valid [x-api-key] header. *)
Definition mkRequest (m : method) (path : list string) (url : string)
    (q : query) (key : option string) (b : body) : request :=
  {| req_method := m; req_path := map plain path; originalUrl := url;
     req_query := q; x_api_key := key; req_body := b |}.

(** POST /api/products with no [x-api-key] header. *)
Definition postWithoutKey : request :=
  mkRequest POST ["api"; "products"] "/api/products" noQuery None emptyBody.

(** The record that the create handler builds. *)
Definition created (uuid n d : string) (p : Q) (c : string) (s : option value)
  : product :=
  {| id := uuid; name := trim n; description := trim d; price := p;
     category := toLowerCase (trim c);
     inStock := match s with None => true | Some v => Boolean (Some v) end |}.

(** The record that the update handler builds from the old one. *)
Definition updated (old : product) (n d : string) (p : Q) (c : string)
    (s : option value) : product :=
  {| id := id old; name := trim n; description := trim d; price := p;
     category := toLowerCase (trim c); inStock := Boolean s |}.

Definition withKey (m : method) (path : list string) (url : string) (b : body)
  : request :=
  mkRequest m path url noQuery (Some secret) b.

(** PUT /api/products/1 with a full body. *)
Definition putLaptop : request :=
  withKey PUT ["api"; "products"; "1"] "/api/products/1"
    {| body_name := Some (VStr "Laptop Pro");
       body_description := Some (VStr " 32GB RAM ");
       body_price := Some (VNum 1500);
       body_category := Some (VStr "Electronics");
       body_inStock := Some (VBool true) |}.

(** PUT /api/products/1 with a body that has no [inStock]. *)
Definition putWithoutInStock : request :=
  withKey PUT ["api"; "products"; "1"] "/api/products/1"
    {| body_name := Some (VStr "Laptop");
       body_description := Some (VStr "High-performance laptop with 16GB RAM");
       body_price := Some (VNum 1200);
       body_category := Some (VStr "electronics");
       body_inStock := None |}.

(** POST /api/products with [inStock: false]. *)
Definition postOutOfStock : request :=
  withKey POST ["api"; "products"] "/api/products"
    {| body_name := Some (VStr "Desk Lamp");
       body_description := Some (VStr "LED lamp");
       body_price := Some (VNum 25);
       body_category := Some (VStr "Furniture");
       body_inStock := Some (VBool false) |}.

(** The body of the round-trip example, and the same body with white
    space around the category. *)
Definition testBody : body :=
  {| body_name := Some (VStr "Test");
     body_description := Some (VStr "d");
     body_price := Some (VNum 10);
     body_category := Some (VStr "Cat");
     body_inStock := Some (VBool true) |}.

Definition paddedBody : body :=
  {| body_name := Some (VStr "Test");
     body_description := Some (VStr "d");
     body_price := Some (VNum 10);
     body_category := Some (VStr " Cat ");
     body_inStock := Some (VBool true) |}.

Definition postBody (b : body) : request :=
  withKey POST ["api"; "products"] "/api/products" b.

Definition getById (i : string) : request :=
  mkRequest GET ["api"; "products"; i] ("/api/products/" ++ i) noQuery None
    emptyBody.

Definition listQuery (c s page limit : option string) : query :=
  {| query_category := QStr <$> c; query_inStock := QStr <$> s;
     query_page := QStr <$> page; query_limit := QStr <$> limit;
     query_q := None |}.

Definition getList (q : query) : request :=
  mkRequest GET ["api"; "products"] "/api/products" q None emptyBody.

(** GET /api/products?category=electronics&page=2&limit=2 *)
Definition getSecondPage : request :=
  getList (listQuery (Some "electronics") None (Some "2") (Some "2")).

(** GET /api/products?page=0 and GET /api/products?limit=0 *)
Definition getPageZero : request :=
  getList (listQuery None None (Some "0") None).

Definition getLimitZero : request :=
  getList (listQuery None None None (Some "0")).

(** GET /api/products?inStock=yes *)
Definition getInStockYes : request :=
  getList (listQuery None (Some "yes") None None).

(** GET /api/products/search?q=LAPTOP *)
Definition getSearchLaptop : request :=
  mkRequest GET ["api"; "products"; "search"] "/api/products/search?q=LAPTOP"
    {| query_category := None; query_inStock := None; query_page := None;
       query_limit := None; query_q := Some (QStr "LAPTOP") |}
    None emptyBody.

(** The data-model invariant on prices: strictly positive. *)
Definition positivePrices (products : list product) : Prop :=
  Forall (fun p => (0 < price p)%Q) products.

(** The sum of the prices, as a specification of [totalValue]. *)
Definition sumPrices (products : list product) : Q :=
  fold_right (fun p acc => (price p + acc)%Q) 0%Q products.

(** The range after the products [seen]: unset before the first one,
    afterwards the least and the greatest price seen. *)
Definition rangeOf (seen : list product) (r : Stats.priceRange) : Prop :=
  (seen = [] -> Stats.min r = None /\ Stats.max r = None) /\
  (seen <> [] ->
   exists lo hi,
     Stats.min r = Some lo /\ Stats.max r = Some hi /\
     In lo (map price seen) /\ In hi (map price seen) /\
     forall p, In p seen -> (lo <= price p <= hi)%Q).

(** The states of the products array that the server reaches from the
    sample data, one request after the other. *)
Inductive reachable : list product -> Prop :=
| reachable_seed : reachable seed
| reachable_step i uuid products :
    reachable products -> reachable (snd (app i uuid products)).

(** ** Vocabulary of the store invariants and of the responses *)

(** The normal form in which the write handlers store a record: name,
    description and category are trimmed and not empty, the category is
    in lower case and the price is positive. *)
Definition wellFormed (p : product) : Prop :=
  trim (name p) = name p /\ name p <> "" /\
  trim (description p) = description p /\ description p <> "" /\
  (0 < price p)%Q /\
  trim (category p) = category p /\
  toLowerCase (category p) = category p /\ category p <> "".

(** No two records of the array have the same id. *)
Definition uniqueIds (products : list product) : Prop :=
  NoDup (map id products).

(** The [products] of a listing response and the [results] of a search
    response; empty for any other response. *)
Definition listed (r : response) : list product :=
  match payload r with
  | ProductsBody items _ => items
  | _ => []
  end.

Definition found (r : response) : list product :=
  match payload r with
  | SearchBody _ results _ => results
  | _ => []
  end.

(** The methods of the protected routes. *)
Definition isWriteMethod (m : method) : bool :=
  match m with
  | POST | PUT | DELETE => true
  | _ => false
  end.

(** The record that a write handler builds from validated fields. *)
Definition normalized (i n d : string) (p : Q) (c : string) (s : bool) : product :=
  {| id := i; name := trim n; description := trim d; price := p;
     category := toLowerCase (trim c); inStock := s |}.

(** ** Further sample requests *)

(** PUT /api/products/no-such-id with the secret and an empty body. *)
Definition putEmptyBodyUnknownId : request :=
  withKey PUT ["api"; "products"; "no-such-id"] "/api/products/no-such-id"
    emptyBody.

(** DELETE /api/products/:id with the secret. *)
Definition deleteById (i : string) : request :=
  withKey DELETE ["api"; "products"; i] ("/api/products/" ++ i) emptyBody.

(** GET /api/products?category=ELECTRONICS&inStock=true *)
Definition getElectronicsInStock : request :=
  getList (listQuery (Some "ELECTRONICS") (Some "true") None None).


(** GET /api/products/search?q=... *)
Definition getSearch (q : string) : request :=
  mkRequest GET ["api"; "products"; "search"] "/api/products/search"
    {| query_category := None; query_inStock := None; query_page := None;
       query_limit := None; query_q := Some (QStr q) |}
    None emptyBody.

(** The status that a write route answers with, as a decision table: the
    key is checked first, then (create and update) the body, then (update
    and delete) the presence of the id. *)
Definition writeStatus (e : endpoint) (ps : params) (req : request)
    (products : list product) : nat :=
  if negb (bool_decide (x_api_key req = Some secret)) then 401
  else if match e with
          | CreateProduct | UpdateProduct =>
              negb (Nat.eqb (length (validationErrors (req_body req))) 0)
          | _ => false
          end
  then 400
  else match e with
       | CreateProduct => 201
       | _ => if existsb (hasId (param "id" ps)) products then 200 else 404
       end.


(** The number [v] that the code computes where exact arithmetic gives the
    non-negative integer [x]: [x] itself below [2^53], and from there on
    some integer from [2^53] on or an infinity. *)
Definition approximates (v : option number) (x : Z) : Prop :=
  ((x < 2 ^ 53)%Z -> v = Some (Int x)) /\
  ((2 ^ 53 <= x)%Z ->
   v = Some (Infinity false) \/
   exists r, v = Some (Int r) /\ (2 ^ 53 <= r)%Z).

(** GET /api/products/search?q=a&q=b: the parser makes an array of the
    repeated parameter. *)
Definition getSearchRepeated : request :=
  mkRequest GET ["api"; "products"; "search"] "/api/products/search?q=a&q=b"
    {| query_category := None; query_inStock := None; query_page := None;
       query_limit := None; query_q := Some (QArr [QStr "a"; QStr "b"]) |}
    None emptyBody.

(** The lower-cased texts of the segments of a path. *)
Definition pathTexts (path : list pathSegment) : list string :=
  map (fun x => toLowerCase (raw x)) path.

(** No price is zero: zero is the one price that [!acc.priceRange.min]
    takes for an unset bound. *)
Definition nonzeroPrices (products : list product) : Prop :=
  Forall (fun p => ~ (price p == 0)%Q) products.

(** A rational that is a double: rounding leaves it as it is. *)
Definition isDouble (q : Q) : Prop := roundQ q = Finite (Qred q).

(** Every sum of the first [k] prices is a double, so that no addition of
    the reducer rounds. *)
Definition exactSums (products : list product) : Prop :=
  forall k, (k <= length products)%nat -> isDouble (sumPrices (take k products)).

(** Two records priced [2^53] and 1. *)
Definition bigAndOne : list product :=
  [ {| id := "1"; name := "Big"; description := "b";
       price := 9007199254740992; category := "c"; inStock := true |};
    {| id := "2"; name := "One"; description := "o";
       price := 1; category := "c"; inStock := true |} ].

(** Three records priced 3, 0 and 5. *)
Definition freeInTheMiddle : list product :=
  [ {| id := "1"; name := "Three"; description := "t";
       price := 3; category := "c"; inStock := true |};
    {| id := "2"; name := "Free"; description := "f";
       price := 0; category := "c"; inStock := true |};
    {| id := "3"; name := "Five"; description := "f";
       price := 5; category := "c"; inStock := true |} ].

(** Two records of the category [constructor]. *)
Definition constructors : list product :=
  [ {| id := "1"; name := "A"; description := "a";
       price := 1; category := "constructor"; inStock := true |};
    {| id := "2"; name := "B"; description := "b";
       price := 1; category := "constructor"; inStock := true |} ].



(** DELETE /api/products/%zz with no [x-api-key] header: the id cannot be
    percent-decoded. *)
Definition deleteUndecodable : request :=
  mkRequest DELETE ["api"; "products"; "%zz"] "/api/products/%zz" noQuery None
    emptyBody.

(** * Properties *)

(** The dispatch of a concrete request, by computation. *)
Ltac dispatched := eexists; split; reflexivity.

(** ** The primitives on examples *)

Example parseInt_42 : parseInt (Some "42") = Some 42%Z.
Proof. reflexivity. Qed.
Example parseInt_neg : parseInt (Some "  -7px") = Some (-7)%Z.
Proof. reflexivity. Qed.
Example parseInt_hex : parseInt (Some "0x1f") = Some 31%Z.
Proof. reflexivity. Qed.
Example parseInt_abc : parseInt (Some "abc") = None.
Proof. reflexivity. Qed.
Example parseInt_undefined : parseInt None = None.
Proof. reflexivity. Qed.
Example trim_ex : trim "  a b  " = "a b".
Proof. reflexivity. Qed.
Example lower_ex : toLowerCase "Cat" = "cat".
Proof. reflexivity. Qed.
Example includes_ex : includes "gaming laptop" "lap" = true.
Proof. reflexivity. Qed.
Example slice_ex : slice (Some (Int 2)) (Some (Int 4)) [1;2;3;4;5] = [3;4].
Proof. reflexivity. Qed.
Example slice_NaN_Infinity :
  slice None (Some (Infinity false)) [1;2;3] = [1;2;3].
Proof. reflexivity. Qed.
Example parseInt_rounds :
  parseInt (Some "9007199254740993") = Some 9007199254740992%Z.
Proof. reflexivity. Qed.
Example parseInt_repeated : parseInt (Some (QArr [QStr "2"; QStr "3"])) = Some 2%Z.
Proof. reflexivity. Qed.
Example decode_escape : decodeURIComponent "a%2Fb%20c" = Some "a/b c".
Proof. reflexivity. Qed.
Example decode_two_bytes :
  decodeURIComponent "caf%C3%A9"
  = Some ("caf" ++ String (ascii_of_nat 233) EmptyString).
Proof. reflexivity. Qed.
Example decode_malformed : decodeURIComponent "%zz" = None.
Proof. reflexivity. Qed.
Example decode_truncated : decodeURIComponent "100%" = None.
Proof. reflexivity. Qed.
Example decode_lone_continuation : decodeURIComponent "%80" = None.
Proof. reflexivity. Qed.
Example decode_overlong : decodeURIComponent "%C0%AF" = None.
Proof. reflexivity. Qed.
Example roundDouble_overflow : roundDouble (2 ^ 1024) = Infinity false.
Proof. vm_compute. reflexivity. Qed.
Example roundDouble_largest :
  roundDouble (2 ^ 1024 - 2 ^ 971) = Int (2 ^ 1024 - 2 ^ 971).
Proof. vm_compute. reflexivity. Qed.

(** ** Strings *)

Lemma startsWith_spec (s t : string) :
  startsWith s t = true <-> exists post : string, s = t ++ post.
Proof.
  revert s. induction t as [|b t IH]; intros s; simpl.
  - split; [intros _; exists s; reflexivity | reflexivity].
  - destruct s as [|a s].
    + split; [discriminate | intros [post H]; discriminate].
    + rewrite andb_true_iff, Ascii.eqb_eq, IH. split.
      * intros [-> [post ->]]. exists post. reflexivity.
      * intros [post H]. injection H as -> ->. split; [reflexivity | eauto].
Qed.

Lemma includes_spec (s t : string) :
  includes s t = true <-> occursIn t s.
Proof.
  unfold occursIn. induction s as [|a s IH].
  - cbn [includes]. rewrite orb_false_r, startsWith_spec. split.
    + intros [post H]. exists EmptyString, post. exact H.
    + intros [pre [post H]]. destruct pre; [eauto | discriminate].
  - cbn [includes]. rewrite orb_true_iff, startsWith_spec, IH. split.
    + intros [[post H] | [pre [post H]]].
      * exists EmptyString, post. exact H.
      * exists (String a pre), post. simpl. rewrite H. reflexivity.
    + intros [pre [post H]]. destruct pre as [|c pre].
      * left. exists post. exact H.
      * right. simpl in H. injection H as _ H. eauto.
Qed.

(** ** The middleware *)

Lemma authMiddleware_rejects (req : request) :
  x_api_key req = None \/ x_api_key req <> Some secret ->
  authMiddleware req =
    Some {| status := 401; payload := ErrorBody unauthorized_message |}.
Proof.
  unfold authMiddleware, strictEq. intros H.
  destruct (x_api_key req) as [k|]; [|reflexivity].
  destruct (String.eqb k "") eqn:E0; [reflexivity|].
  destruct (String.eqb_spec k secret) as [->|Hne]; [|reflexivity].
  destruct H as [H|H]; [discriminate | contradiction].
Qed.

Lemma authMiddleware_accepts (req : request) :
  x_api_key req = Some secret -> authMiddleware req = None.
Proof. unfold authMiddleware. intros ->. reflexivity. Qed.

Lemma validateProduct_accepts (req : request) :
  validationErrors (req_body req) = [] -> validateProduct req = None.
Proof. unfold validateProduct. intros ->. reflexivity. Qed.

Lemma validateProduct_rejects (req : request) :
  validationErrors (req_body req) <> [] ->
  validateProduct req =
    Some {| status := 400;
            payload := ValidationBody "Validation failed"
                         (validationErrors (req_body req)) |}.
Proof.
  unfold validateProduct. intros H.
  destruct (validationErrors (req_body req)); [contradiction | reflexivity].
Qed.

Lemma notNonEmptyString_false (v : option value) :
  notNonEmptyString v = false ->
  exists s, v = Some (VStr s) /\ trim s <> "".
Proof.
  unfold notNonEmptyString.
  destruct v as [[|b|q|s| |]|]; simpl; try discriminate.
  - destruct b; discriminate.
  - destruct (Qeq_bool q 0); discriminate.
  - intros H. exists s. split; [reflexivity|].
    apply orb_false_elim in H as [_ H]. intros E. rewrite E in H. discriminate.
Qed.

Lemma notPositiveNumber_false (v : option value) :
  notPositiveNumber v = false -> exists q, v = Some (VNum q) /\ (0 < q)%Q.
Proof.
  unfold notPositiveNumber.
  destruct v as [[| |q| | |]|]; simpl; try discriminate.
  intros H. exists q. split; [reflexivity|].
  apply Qnot_le_lt. intros Hle. apply Qle_bool_iff in Hle. congruence.
Qed.

Lemma notOptionalBoolean_false (v : option value) :
  notOptionalBoolean v = false -> v = None \/ exists b, v = Some (VBool b).
Proof.
  unfold notOptionalBoolean.
  destruct v as [[| b | | | |]|]; simpl; try discriminate; eauto.
Qed.

(** A body without violations has three trimmed-non-empty strings, a
    positive number and an [inStock] that is absent or a boolean. *)
Lemma validated_fields (b : body) :
  validationErrors b = [] ->
  exists n d p c,
    body_name b = Some (VStr n) /\ trim n <> "" /\
    body_description b = Some (VStr d) /\ trim d <> "" /\
    body_price b = Some (VNum p) /\ (0 < p)%Q /\
    body_category b = Some (VStr c) /\ trim c <> "" /\
    (body_inStock b = None \/ exists s, body_inStock b = Some (VBool s)).
Proof.
  unfold validationErrors. intros H.
  destruct (notNonEmptyString (body_name b)) eqn:E1; [discriminate|].
  destruct (notNonEmptyString (body_description b)) eqn:E2; [discriminate|].
  destruct (notPositiveNumber (body_price b)) eqn:E3; [discriminate|].
  destruct (notNonEmptyString (body_category b)) eqn:E4; [discriminate|].
  destruct (notOptionalBoolean (body_inStock b)) eqn:E5; [discriminate|].
  apply notNonEmptyString_false in E1 as (n & ? & ?).
  apply notNonEmptyString_false in E2 as (d & ? & ?).
  apply notPositiveNumber_false in E3 as (p & ? & ?).
  apply notNonEmptyString_false in E4 as (c & ? & ?).
  apply notOptionalBoolean_false in E5.
  exists n, d, p, c. tauto.
Qed.

(** ** Dispatch *)

Lemma method_eqb_eq (a b : method) : method_eqb a b = true -> a = b.
Proof.
  destruct a, b; simpl; try discriminate; try reflexivity.
  intros H. apply String.eqb_eq in H. congruence.
Qed.

Lemma handlesMethod_true r m :
  handlesMethod r m = true ->
  route_method r = m \/ (route_method r = GET /\ m = HEAD).
Proof.
  unfold handlesMethod. rewrite orb_true_iff, andb_true_iff.
  intros [H | [H1 H2]]; auto using method_eqb_eq.
Qed.

Lemma dispatch_Some rs m path r ps :
  dispatch rs m path = Route r ps ->
  In r rs /\ handlesMethod r m = true /\
  matchPath (route_path r) path = Match ps.
Proof.
  induction rs as [|r0 rs IH]; simpl; [discriminate|].
  destruct (matchPath (route_path r0) path) as [| |ps0] eqn:Ep.
  - intros H. apply IH in H. tauto.
  - discriminate.
  - destruct (handlesMethod r0 m) eqn:Em.
    + intros [= <- <-]. auto.
    + intros H. apply IH in H. tauto.
Qed.

Lemma routes_guards r :
  In r routes -> route_middleware r = guards (route_endpoint r).
Proof.
  unfold routes. simpl.
  intros H. repeat (destruct H as [<- | H]; [reflexivity|]). contradiction.
Qed.

Lemma routes_method r :
  In r routes ->
  route_method r = match route_endpoint r with
                   | CreateProduct => POST
                   | UpdateProduct => PUT
                   | DeleteProduct => DELETE
                   | _ => GET
                   end.
Proof.
  unfold routes. simpl.
  intros H. repeat (destruct H as [<- | H]; [reflexivity|]). contradiction.
Qed.

(** What the router does with a dispatched request. *)
Lemma router_routed req uuid products e ps :
  routed req e ps ->
  router req uuid products =
    match runMiddleware (guards e) req with
    | Some res => (res, products)
    | None =>
        match handlerOf e ps req uuid products with
        | (Sent res, products') => (res, products')
        | (Thrown err, products') => (errorHandler err, products')
        end
    end.
Proof.
  intros (r & Hd & <-). unfold router. rewrite Hd.
  apply dispatch_Some in Hd as (Hin & _ & _).
  rewrite (routes_guards r Hin). reflexivity.
Qed.

(** The write endpoints are reached by POST, PUT and DELETE, the read
    endpoints by GET and HEAD. *)
Lemma routed_method req e ps :
  routed req e ps ->
  match e with
  | CreateProduct => req_method req = POST
  | UpdateProduct => req_method req = PUT
  | DeleteProduct => req_method req = DELETE
  | _ => req_method req = GET \/ req_method req = HEAD
  end.
Proof.
  intros (r & Hd & <-). apply dispatch_Some in Hd as (Hin & Hm & _).
  apply handlesMethod_true in Hm. pose proof (routes_method r Hin) as Hr.
  destruct (route_endpoint r); rewrite Hr in Hm;
    destruct Hm as [Hm | [Hm1 Hm2]]; auto; discriminate.
Qed.

(** A malformed body is answered before the routes and leaves the
    products array as it is. *)
Lemma app_malformed req uuid products :
  app (Malformed req) uuid products =
    ({| status := 400; payload := ErrorBody "Invalid JSON format" |}, products).
Proof. reflexivity. Qed.

(** ** C3: the authentication gate *)

(** C3, counterexample.  A POST on [/api/products] without the header
    whose body is not well-formed JSON is answered 400 by the body
    parser, and a DELETE on [/api/products/%zz] without the header is
    answered 500, because the id cannot be percent-decoded: neither is
    answered 401. *)
Lemma auth_gate_counterexample :
  req_method postWithoutKey = POST /\ x_api_key postWithoutKey = None /\
  app (Malformed postWithoutKey) "" seed =
    ({| status := 400; payload := ErrorBody "Invalid JSON format" |}, seed) /\
  req_method deleteUndecodable = DELETE /\ x_api_key deleteUndecodable = None /\
  app (Decoded deleteUndecodable) "" seed =
    ({| status := 500;
        payload := ErrorMessageBody "Internal Server Error"
                     "Something went wrong on the server" |}, seed).
Proof. repeat split. Qed.

(** C3, amended.  A POST, PUT or DELETE request on a products route (it
    is dispatched, and then to the create, update or delete endpoint: the
    id in its path, if any, can be percent-decoded) whose [x-api-key]
    header is missing or differs from the secret is answered, when the
    JSON parser decoded its body, with status 401 and a message that
    names the [x-api-key] header; when its body is not well-formed JSON
    it is answered 400 [Invalid JSON format].  The products array is
    unchanged in both cases. *)
Theorem auth_gate_401_store_unchanged req uuid products e ps :
  routed req e ps ->
  req_method req = POST \/ req_method req = PUT \/ req_method req = DELETE ->
  x_api_key req = None \/ x_api_key req <> Some secret ->
  (e = CreateProduct \/ e = UpdateProduct \/ e = DeleteProduct) /\
  app (Decoded req) uuid products =
    ({| status := 401; payload := ErrorBody unauthorized_message |}, products) /\
  app (Malformed req) uuid products =
    ({| status := 400; payload := ErrorBody "Invalid JSON format" |}, products) /\
  occursIn "x-api-key" unauthorized_message.
Proof.
  intros Hr Hm Hk.
  pose proof (routed_method _ _ _ Hr) as He.
  assert (Hprot : e = CreateProduct \/ e = UpdateProduct \/ e = DeleteProduct).
  { destruct e; auto; destruct He as [He | He]; rewrite He in Hm;
      destruct Hm as [?|[?|?]]; discriminate. }
  split; [exact Hprot|]. split; [|split; [reflexivity|]].
  - cbn [app]. rewrite (router_routed _ _ _ _ _ Hr).
    destruct Hprot as [-> | [-> | ->]]; simpl;
      rewrite (authMiddleware_rejects _ Hk); reflexivity.
  - apply includes_spec. reflexivity.
Qed.

Lemma auth_gate_401_store_unchanged_witness :
  (CreateProduct = CreateProduct \/ CreateProduct = UpdateProduct
   \/ CreateProduct = DeleteProduct) /\
  app (Decoded postWithoutKey) "" seed =
    ({| status := 401; payload := ErrorBody unauthorized_message |}, seed) /\
  app (Malformed postWithoutKey) "" seed =
    ({| status := 400; payload := ErrorBody "Invalid JSON format" |}, seed) /\
  occursIn "x-api-key" unauthorized_message.
Proof.
  apply (auth_gate_401_store_unchanged postWithoutKey "" seed CreateProduct []).
  - dispatched.
  - left. reflexivity.
  - left. reflexivity.
Defined.

(** ** The write handlers behind their gates *)

Lemma findIndex_Some {A} (f : A -> bool) (l : list A) (i : nat) :
  findIndex f l = Some i ->
  exists x, l !! i = Some x /\ f x = true.
Proof.
  revert i. induction l as [|y l IH]; intros i; simpl; [discriminate|].
  destruct (f y) eqn:Ey.
  - intros [= <-]. exists y. auto.
  - destruct (findIndex f l) as [k|]; simpl; [|discriminate].
    intros [= <-]. apply (IH k). reflexivity.
Qed.

Lemma hasId_true (i : option string) (p : product) :
  hasId i p = true -> i = Some (id p).
Proof.
  unfold hasId, strictEq. destruct i as [s|]; [|discriminate].
  intros H. apply String.eqb_eq in H. congruence.
Qed.

Section Accepted.

(** A request that passes both gates: it carries the secret and its body
    has no violation. *)
Variables (req : request) (uuid : string) (products : list product) (ps : params).
Hypothesis Hk : x_api_key req = Some secret.
Hypothesis Hv : validationErrors (req_body req) = [].

(** An authenticated create request with a valid body appends one record
    and answers 201. *)
Lemma create_accepted :
  routed req CreateProduct ps ->
  exists n d p c,
    body_name (req_body req) = Some (VStr n) /\
    body_description (req_body req) = Some (VStr d) /\
    body_price (req_body req) = Some (VNum p) /\
    body_category (req_body req) = Some (VStr c) /\
    (0 < p)%Q /\
    router req uuid products =
      ({| status := 201;
          payload := MessageBody "Product created successfully"
                       (created uuid n d p c (body_inStock (req_body req))) |},
       (products ++ [created uuid n d p c (body_inStock (req_body req))])%list).
Proof.
  intros Hr.
  destruct (validated_fields _ Hv)
    as (n & d & p & c & Hn & _ & Hd & _ & Hp & Hpos & Hc & _ & _).
  exists n, d, p, c. repeat (split; [assumption|]).
  rewrite (router_routed _ _ _ _ _ Hr). simpl.
  rewrite (authMiddleware_accepts _ Hk), (validateProduct_accepts _ Hv).
  unfold createProduct, created. rewrite Hn, Hd, Hp, Hc.
  destruct (body_inStock (req_body req)); reflexivity.
Qed.

(** An authenticated update request with a valid body for an id that is
    in the array overwrites the first record with that id, in place, and
    answers 200. *)
Lemma update_accepted (i : nat) :
  routed req UpdateProduct ps ->
  findIndex (hasId (param "id" ps)) products = Some i ->
  exists old n d p c,
    products !! i = Some old /\
    param "id" ps = Some (id old) /\
    body_name (req_body req) = Some (VStr n) /\
    body_description (req_body req) = Some (VStr d) /\
    body_price (req_body req) = Some (VNum p) /\
    body_category (req_body req) = Some (VStr c) /\
    (0 < p)%Q /\
    router req uuid products =
      ({| status := 200;
          payload := MessageBody "Product updated successfully"
                       (updated old n d p c (body_inStock (req_body req))) |},
       <[i := updated old n d p c (body_inStock (req_body req))]> products).
Proof.
  intros Hr Hi.
  destruct (validated_fields _ Hv)
    as (n & d & p & c & Hn & _ & Hd & _ & Hp & Hpos & Hc & _ & _).
  destruct (findIndex_Some _ _ _ Hi) as (old & Hold & Hid).
  exists old, n, d, p, c. split; [exact Hold|].
  split; [apply hasId_true, Hid|]. repeat (split; [assumption|]).
  rewrite (router_routed _ _ _ _ _ Hr). simpl.
  rewrite (authMiddleware_accepts _ Hk), (validateProduct_accepts _ Hv).
  unfold updateProduct, updated. rewrite Hi, Hold, Hn, Hd, Hp, Hc. reflexivity.
Qed.

End Accepted.

(** ** C9: the frame of an update *)

Lemma findIndex_first {A} (f : A -> bool) (l : list A) (i : nat) :
  findIndex f l = Some i ->
  forall j y, (j < i)%nat -> l !! j = Some y -> f y = false.
Proof.
  revert i. induction l as [|x l IH]; intros i; simpl; [discriminate|].
  destruct (f x) eqn:Ex.
  - intros [= <-] j y Hj. lia.
  - destruct (findIndex f l) as [k|]; simpl; [|discriminate].
    intros [= <-] [|j] y Hj; simpl.
    + intros [= <-]. exact Ex.
    + apply (IH k eq_refl). lia.
Qed.

(** The id routes bind [id] to the decoded third segment of the path,
    which a single empty segment (a trailing slash) may follow. *)
Lemma routed_id_param req e ps :
  routed req e ps ->
  e = GetProduct \/ e = UpdateProduct \/ e = DeleteProduct ->
  exists a b x v rest,
    req_path req = a :: b :: x :: rest /\
    (rest = [] \/ exists t, rest = [t] /\ raw t = "") /\
    raw x <> "" /\ decoded x = Some v /\ ps = [("id", v)] /\
    param "id" ps = Some v.
Proof.
  intros (r & Hd & <-) He. apply dispatch_Some in Hd as (Hin & _ & Hp).
  assert (Hpath : route_path r = [Lit "api"; Lit "products"; Param "id"]).
  { unfold routes in Hin. simpl in Hin.
    repeat (destruct Hin as [<- | Hin];
            [try reflexivity; simpl in He; destruct He as [He | [He | He]];
             discriminate|]).
    contradiction. }
  rewrite Hpath in Hp.
  destruct (req_path req) as [|a [|b [|x rest]]]; cbn [matchPath] in Hp;
    repeat match type of Hp with
           | (if ?c then _ else _) = _ => destruct c eqn:?; try discriminate
           end; try discriminate.
  assert (Hrest : matchPath [] rest = Match [] /\
                  exists v, decoded x = Some v /\ ps = [("id", v)]).
  { destruct rest as [|t [|u rest]]; cbn [matchPath] in Hp |- *.
    - destruct (decoded x) as [v|]; [|discriminate].
      injection Hp as <-. eauto.
    - destruct (String.eqb (raw t) ""); [|discriminate].
      destruct (decoded x) as [v|]; [|discriminate].
      injection Hp as <-. eauto.
    - discriminate. }
  destruct Hrest as (Hm & v & Hv & ->).
  exists a, b, x, v, rest. split; [reflexivity|]. split.
  { destruct rest as [|t [|u rest]]; simpl in Hm; try discriminate; [auto|].
    right. exists t. split; [reflexivity|].
    destruct (String.eqb_spec (raw t) ""); [assumption | discriminate]. }
  split; [|auto].
  intros Hx. rewrite Hx in *. discriminate.
Qed.

(** C9.  A successful PUT (authenticated, valid body, id present) answers
    200.  Its target is the first record whose id is the percent-decoded
    third segment of the path.  The request rewrites the five fields of
    that record from the body (strings trimmed, category lower-cased,
    inStock coerced to a boolean), keeps its id and its position, and
    leaves every other record and the length of the array unchanged. *)
Theorem update_rewrites_one_record_in_place req uuid products ps i :
  routed req UpdateProduct ps ->
  x_api_key req = Some secret ->
  validationErrors (req_body req) = [] ->
  findIndex (hasId (param "id" ps)) products = Some i ->
  exists old n d p c new,
    products !! i = Some old /\
    (exists a b x rest,
       req_path req = a :: b :: x :: rest /\ decoded x = Some (id old)) /\
    param "id" ps = Some (id old) /\
    (forall j y, (j < i)%nat -> products !! j = Some y -> id y <> id old) /\
    body_name (req_body req) = Some (VStr n) /\
    body_description (req_body req) = Some (VStr d) /\
    body_price (req_body req) = Some (VNum p) /\
    body_category (req_body req) = Some (VStr c) /\
    new = {| id := id old; name := trim n; description := trim d; price := p;
             category := toLowerCase (trim c);
             inStock := Boolean (body_inStock (req_body req)) |} /\
    fst (router req uuid products) =
      {| status := 200;
         payload := MessageBody "Product updated successfully" new |} /\
    length (snd (router req uuid products)) = length products /\
    snd (router req uuid products) !! i = Some new /\
    forall j, j <> i -> snd (router req uuid products) !! j = products !! j.
Proof.
  intros Hr Hk Hv Hi.
  destruct (update_accepted req uuid products ps Hk Hv i Hr Hi)
    as (old & n & d & p & c & Hold & Hid & Hn & Hd & Hp & Hc & _ & Heq).
  exists old, n, d, p, c, (updated old n d p c (body_inStock (req_body req))).
  split; [exact Hold|]. split.
  { destruct (routed_id_param req UpdateProduct ps Hr ltac:(auto))
      as (a & b & x & v & rest & Hpath & _ & _ & Hv' & _ & Hx).
    exists a, b, x, rest. split; [exact Hpath|]. congruence. }
  split; [exact Hid|]. split.
  { intros j y Hj Hy Heq'.
    pose proof (findIndex_first _ _ _ Hi j y Hj Hy) as Hf.
    rewrite Hid in Hf. unfold hasId, strictEq in Hf. rewrite Heq' in Hf.
    rewrite String.eqb_refl in Hf. discriminate. }
  rewrite Heq. simpl. repeat (split; [assumption || reflexivity|]).
  split; [apply length_insert|]. split.
  - apply list_lookup_insert_eq. eapply lookup_lt_Some, Hold.
  - intros j Hj. apply list_lookup_insert_ne. congruence.
Qed.

Lemma update_rewrites_one_record_in_place_witness :
  exists old n d p c new,
    seed !! 0%nat = Some old /\
    (exists a b x rest,
       req_path putLaptop = a :: b :: x :: rest /\ decoded x = Some (id old)) /\
    param "id" [("id", "1")] = Some (id old) /\
    (forall j y, (j < 0)%nat -> seed !! j = Some y -> id y <> id old) /\
    body_name (req_body putLaptop) = Some (VStr n) /\
    body_description (req_body putLaptop) = Some (VStr d) /\
    body_price (req_body putLaptop) = Some (VNum p) /\
    body_category (req_body putLaptop) = Some (VStr c) /\
    new = {| id := id old; name := trim n; description := trim d; price := p;
             category := toLowerCase (trim c);
             inStock := Boolean (body_inStock (req_body putLaptop)) |} /\
    fst (router putLaptop "" seed) =
      {| status := 200;
         payload := MessageBody "Product updated successfully" new |} /\
    length (snd (router putLaptop "" seed)) = length seed /\
    snd (router putLaptop "" seed) !! 0%nat = Some new /\
    forall j, j <> 0%nat -> snd (router putLaptop "" seed) !! j = seed !! j.
Proof.
  apply (update_rewrites_one_record_in_place putLaptop "" seed [("id", "1")] 0).
  - dispatched.
  - reflexivity.
  - vm_compute. reflexivity.
  - reflexivity.
Defined.

(** ** C2: inStock on a full update *)

(** C2, counterexample.  The update of product 1 with a body that omits
    [inStock] is not rejected with 400: it passes validation, is answered
    200 and persists the record, now with [inStock = false]. *)
Lemma update_without_inStock_counterexample :
  routed putWithoutInStock UpdateProduct [("id", "1")] /\
  body_inStock (req_body putWithoutInStock) = None /\
  validateProduct putWithoutInStock = None /\
  status (fst (router putWithoutInStock "" seed)) = 200%nat /\
  status (fst (router putWithoutInStock "" seed)) <> 400%nat /\
  inStock <$> seed !! 0%nat = Some true /\
  inStock <$> snd (router putWithoutInStock "" seed) !! 0%nat = Some false /\
  snd (router putWithoutInStock "" seed) <> seed.
Proof.
  split; [dispatched|].
  split; [reflexivity|]. split; [vm_compute; reflexivity|].
  split; [vm_compute; reflexivity|]. split; [vm_compute; discriminate|].
  split; [reflexivity|]. split; [vm_compute; reflexivity|].
  intros H. apply (f_equal (fun l => inStock <$> l !! 0%nat)) in H.
  vm_compute in H. discriminate.
Qed.

(** C2, amended.  On PUT the [inStock] field is optional, as on create:
    an authenticated update whose body omits [inStock] and whose four
    other fields are valid passes the validation stage, is answered 200
    and persists the record with [inStock = false]. *)
Theorem update_without_inStock_persists_false req uuid products ps i :
  routed req UpdateProduct ps ->
  x_api_key req = Some secret ->
  body_inStock (req_body req) = None ->
  notNonEmptyString (body_name (req_body req)) = false ->
  notNonEmptyString (body_description (req_body req)) = false ->
  notPositiveNumber (body_price (req_body req)) = false ->
  notNonEmptyString (body_category (req_body req)) = false ->
  findIndex (hasId (param "id" ps)) products = Some i ->
  validateProduct req = None /\
  exists new,
    fst (router req uuid products) =
      {| status := 200;
         payload := MessageBody "Product updated successfully" new |} /\
    inStock new = false /\
    snd (router req uuid products) !! i = Some new.
Proof.
  intros Hr Hk Hs Hn Hd Hp Hc Hi.
  assert (Hv : validationErrors (req_body req) = []).
  { unfold validationErrors. rewrite Hn, Hd, Hp, Hc, Hs. reflexivity. }
  split; [apply validateProduct_accepts, Hv|].
  destruct (update_accepted req uuid products ps Hk Hv i Hr Hi)
    as (old & n & d & p & c & Hold & _ & _ & _ & _ & _ & _ & Heq).
  exists (updated old n d p c (body_inStock (req_body req))).
  rewrite Heq. simpl. split; [reflexivity|]. split.
  - rewrite Hs. reflexivity.
  - apply list_lookup_insert_eq. eapply lookup_lt_Some, Hold.
Qed.

Lemma update_without_inStock_persists_false_witness :
  validateProduct putWithoutInStock = None /\
  exists new,
    fst (router putWithoutInStock "" seed) =
      {| status := 200;
         payload := MessageBody "Product updated successfully" new |} /\
    inStock new = false /\
    snd (router putWithoutInStock "" seed) !! 0%nat = Some new.
Proof.
  apply (update_without_inStock_persists_false
           putWithoutInStock "" seed [("id", "1")] 0).
  - dispatched.
  - reflexivity.
  - reflexivity.
  - reflexivity.
  - reflexivity.
  - reflexivity.
  - reflexivity.
  - reflexivity.
Defined.

(** ** C10: the default of inStock on create *)

(** C10.  On an accepted create the stored record has [inStock = true]
    when the body has no [inStock], and has the submitted boolean when the
    body supplies one: in particular [inStock: false] is stored as
    [false]. *)
Theorem create_inStock_default_only_when_absent req uuid products ps :
  routed req CreateProduct ps ->
  x_api_key req = Some secret ->
  validationErrors (req_body req) = [] ->
  exists new,
    router req uuid products =
      ({| status := 201;
          payload := MessageBody "Product created successfully" new |},
       (products ++ [new])%list) /\
    (body_inStock (req_body req) = None -> inStock new = true) /\
    (body_inStock (req_body req) = Some (VBool false) -> inStock new = false) /\
    (forall s, body_inStock (req_body req) = Some (VBool s) -> inStock new = s).
Proof.
  intros Hr Hk Hv.
  destruct (create_accepted req uuid products ps Hk Hv Hr)
    as (n & d & p & c & _ & _ & _ & _ & _ & Heq).
  exists (created uuid n d p c (body_inStock (req_body req))).
  split; [exact Heq|]. simpl.
  split; [intros ->; reflexivity|]. split; [intros ->; reflexivity|].
  intros s ->. reflexivity.
Qed.

Lemma create_inStock_default_only_when_absent_witness :
  exists new,
    router postOutOfStock "u-6" seed =
      ({| status := 201;
          payload := MessageBody "Product created successfully" new |},
       (seed ++ [new])%list) /\
    (body_inStock (req_body postOutOfStock) = None -> inStock new = true) /\
    (body_inStock (req_body postOutOfStock) = Some (VBool false) ->
     inStock new = false) /\
    (forall s, body_inStock (req_body postOutOfStock) = Some (VBool s) ->
               inStock new = s).
Proof.
  apply (create_inStock_default_only_when_absent postOutOfStock "u-6" seed []).
  - dispatched.
  - reflexivity.
  - vm_compute. reflexivity.
Defined.

(** ** C6: create, then fetch by the returned id *)

Lemma find_app_fresh (f : product -> bool) (l : list product) (x : product) :
  Forall (fun p => f p = false) l -> f x = true ->
  List.find f (l ++ [x]) = Some x.
Proof.
  intros Hl Hx. induction Hl as [|y l Hy _ IH]; simpl.
  - rewrite Hx. reflexivity.
  - rewrite Hy. exact IH.
Qed.

Lemma hasId_fresh (uuid : string) (products : list product) :
  Forall (fun p => id p <> uuid) products ->
  Forall (fun p => hasId (Some uuid) p = false) products.
Proof.
  intros H. induction H as [|p l Hp _ IH]; constructor; [|exact IH].
  unfold hasId, strictEq. apply String.eqb_neq, Hp.
Qed.

(** What GET /api/products/:id answers when a record has that id. *)
Lemma get_found req uuid products ps product :
  routed req GetProduct ps ->
  List.find (hasId (param "id" ps)) products = Some product ->
  router req uuid products =
    ({| status := 200; payload := ProductBody product |}, products).
Proof.
  intros Hr Hf. rewrite (router_routed _ _ _ _ _ Hr). simpl.
  unfold getProductById. rewrite Hf. reflexivity.
Qed.

(** C6, counterexample.  The body with category [" Cat "] is valid; the
    record fetched after its creation has category ["cat"], which is not
    the submitted category lower-cased ([" cat "]). *)
Lemma create_category_not_just_lowercased_counterexample :
  validationErrors paddedBody = [] /\
  exists fetched after,
    router (postBody paddedBody) "u-6" seed =
      ({| status := 201;
          payload := MessageBody "Product created successfully" fetched |},
       after) /\
    router (getById "u-6") "" after =
      ({| status := 200; payload := ProductBody fetched |}, after) /\
    category fetched = "cat" /\
    toLowerCase " Cat " = " cat " /\
    category fetched <> toLowerCase " Cat ".
Proof.
  split; [vm_compute; reflexivity|].
  eexists. eexists. split; [vm_compute; reflexivity|].
  split; [vm_compute; reflexivity|]. split; [reflexivity|].
  split; [reflexivity|]. vm_compute. discriminate.
Qed.

(** C6, amended.  For every accepted create whose generated id is not yet
    in the array, fetching the returned id answers 200 with the created
    record: name and description are the submitted ones trimmed, price
    is the submitted price, category is the submitted category trimmed
    and then lower-cased, and inStock is the submitted boolean ([true]
    when the body has none). *)
Theorem create_then_get_returns_normalized_fields
    req uuid products ps getReq uuid' gps :
  routed req CreateProduct ps ->
  x_api_key req = Some secret ->
  validationErrors (req_body req) = [] ->
  Forall (fun p => id p <> uuid) products ->
  routed getReq GetProduct gps ->
  param "id" gps = Some uuid ->
  exists n d p c fetched,
    body_name (req_body req) = Some (VStr n) /\
    body_description (req_body req) = Some (VStr d) /\
    body_price (req_body req) = Some (VNum p) /\
    body_category (req_body req) = Some (VStr c) /\
    fst (router req uuid products) =
      {| status := 201;
         payload := MessageBody "Product created successfully" fetched |} /\
    router getReq uuid' (snd (router req uuid products)) =
      ({| status := 200; payload := ProductBody fetched |},
       snd (router req uuid products)) /\
    id fetched = uuid /\
    name fetched = trim n /\
    description fetched = trim d /\
    price fetched = p /\
    category fetched = toLowerCase (trim c) /\
    inStock fetched = match body_inStock (req_body req) with
                      | Some (VBool s) => s
                      | _ => true
                      end.
Proof.
  intros Hr Hk Hv Hfresh Hg Hid.
  destruct (create_accepted req uuid products ps Hk Hv Hr)
    as (n & d & p & c & Hn & Hd & Hp & Hc & _ & Heq).
  exists n, d, p, c, (created uuid n d p c (body_inStock (req_body req))).
  rewrite Heq. simpl. repeat (split; [assumption || reflexivity|]).
  split.
  - apply (get_found _ _ _ gps); [exact Hg|]. rewrite Hid.
    apply find_app_fresh; [apply hasId_fresh, Hfresh|].
    unfold hasId, strictEq. simpl. apply String.eqb_refl.
  - repeat (split; [reflexivity|]).
    destruct (validated_fields _ Hv) as (_ & _ & _ & _ & _ & _ & _ & _ & _ & _ & _ & _ & Hs).
    destruct Hs as [-> | [s ->]]; reflexivity.
Qed.

Lemma create_then_get_returns_normalized_fields_witness :
  exists n d p c fetched,
    body_name testBody = Some (VStr n) /\
    body_description testBody = Some (VStr d) /\
    body_price testBody = Some (VNum p) /\
    body_category testBody = Some (VStr c) /\
    fst (router (postBody testBody) "u-6" seed) =
      {| status := 201;
         payload := MessageBody "Product created successfully" fetched |} /\
    router (getById "u-6") "" (snd (router (postBody testBody) "u-6" seed)) =
      ({| status := 200; payload := ProductBody fetched |},
       snd (router (postBody testBody) "u-6" seed)) /\
    id fetched = "u-6" /\
    name fetched = trim n /\
    description fetched = trim d /\
    price fetched = p /\
    category fetched = toLowerCase (trim c) /\
    inStock fetched = true.
Proof.
  apply (create_then_get_returns_normalized_fields
           (postBody testBody) "u-6" seed [] (getById "u-6") "" [("id", "u-6")]).
  - dispatched.
  - reflexivity.
  - vm_compute. reflexivity.
  - unfold seed. repeat constructor; simpl; discriminate.
  - dispatched.
  - reflexivity.
Defined.

(** The example of the specification: the fetched record has the
    submitted fields, with category ["cat"]. *)
Example roundtrip_test_body :
  router (getById "u-6") "" (snd (router (postBody testBody) "u-6" seed)) =
    ({| status := 200;
        payload := ProductBody {| id := "u-6"; name := "Test"; description := "d";
                                  price := 10; category := "cat";
                                  inStock := true |} |},
     snd (router (postBody testBody) "u-6" seed)).
Proof. vm_compute. reflexivity. Qed.

(** ** Rounding to a double *)

(** An integer below [2^53] is a double. *)
Lemma roundDouble_exact (z : Z) :
  (0 <= z < 2 ^ 53)%Z -> roundDouble z = Int z.
Proof.
  intros Hz. unfold roundDouble.
  assert (Ha : Z.abs z = z) by lia. rewrite Ha.
  assert (He : (Z.log2 z <= 52)%Z).
  { destruct (Z.eq_dec z 0%Z) as [-> | Hne]; [simpl; lia|].
    assert (Z.log2 z < 53)%Z by (apply Z.log2_lt_pow2; lia). lia. }
  apply Z.leb_le in He. rewrite He. cbv zeta.
  rewrite Z.shiftl_1_l.
  assert (Hlt : (z < 2 ^ 1024)%Z).
  { assert (2 ^ 53 < 2 ^ 1024)%Z by (apply Z.pow_lt_mono_r; lia). lia. }
  apply Z.leb_gt in Hlt. rewrite Hlt. f_equal.
  destruct (Z.eq_dec z 0%Z) as [-> | Hne]; [reflexivity|].
  rewrite Z.sgn_pos by lia. lia.
Qed.

(** An integer from [2^53] on rounds to an integer from [2^53] on, or
    overflows. *)
Lemma roundDouble_large (z : Z) :
  (2 ^ 53 <= z)%Z ->
  roundDouble z = Infinity false \/
  exists r, roundDouble z = Int r /\ (2 ^ 53 <= r)%Z.
Proof.
  intros Hz. unfold roundDouble.
  assert (H53 : (0 < 2 ^ 53)%Z) by (apply Z.pow_pos_nonneg; lia).
  assert (Ha : Z.abs z = z) by lia. rewrite Ha.
  assert (He : (53 <= Z.log2 z)%Z) by (apply Z.log2_le_pow2; lia).
  assert (Hle : (Z.log2 z <=? 52)%Z = false) by (apply Z.leb_gt; lia).
  rewrite Hle. cbv zeta.
  set (e := Z.log2 z) in *. set (s := (e - 52)%Z).
  set (q := Z.shiftr z s).
  set (up := ((Z.shiftl 1 (s - 1) <? Z.land z (Z.ones s))
              || ((Z.land z (Z.ones s) =? Z.shiftl 1 (s - 1)) && Z.odd q))%Z).
  assert (Hq : (2 ^ 52 <= q)%Z).
  { unfold q. rewrite Z.shiftr_div_pow2 by lia.
    assert (Hze : (2 ^ e <= z)%Z) by (apply Z.log2_spec; lia).
    replace (2 ^ 52)%Z with (2 ^ e / 2 ^ s)%Z.
    - apply Z.div_le_mono; [apply Z.pow_pos_nonneg; lia | exact Hze].
    - replace e with (52 + s)%Z at 1 by (unfold s; lia).
      rewrite Z.pow_add_r by lia.
      apply Z.div_mul. apply Z.pow_nonzero; lia. }
  assert (Hr : (2 ^ 53 <= Z.shiftl (if up then q + 1 else q) s)%Z).
  { rewrite Z.shiftl_mul_pow2 by lia.
    assert (Hs : (2 ^ 1 <= 2 ^ s)%Z) by (apply Z.pow_le_mono_r; lia).
    change (2 ^ 53)%Z with (2 ^ 52 * 2 ^ 1)%Z.
    assert (H52 : (0 < 2 ^ 52)%Z) by (apply Z.pow_pos_nonneg; lia).
    change (2 ^ 1)%Z with 2%Z in *.
    destruct up; nia. }
  assert (Hneg : (z <? 0)%Z = false) by (apply Z.ltb_ge; lia).
  rewrite Hneg. rewrite Z.sgn_pos by lia.
  destruct (Z.shiftl 1 1024 <=? Z.shiftl (if up then q + 1 else q) s)%Z.
  - left. reflexivity.
  - right. eexists. split; [reflexivity|]. lia.
Qed.

(** ** The query engine *)

Lemma approximates_round (x : Z) :
  (0 <= x)%Z -> approximates (Some (roundDouble x)) x.
Proof.
  intros Hx. split.
  - intros H. rewrite roundDouble_exact by lia. reflexivity.
  - intros H. destruct (roundDouble_large x H) as [-> | (r & -> & Hr)]; eauto.
Qed.

Lemma approximates_mul (v : option number) (a l : Z) :
  approximates v a -> (0 <= a)%Z -> (1 <= l)%Z ->
  approximates (mul v (Some (Int l))) (a * l).
Proof.
  intros [Hs Hl] Ha Hlim.
  assert (H53 : (0 < 2 ^ 53)%Z) by (apply Z.pow_pos_nonneg; lia).
  assert (Hl0 : (l =? 0)%Z = false) by (apply Z.eqb_neq; lia).
  assert (Hln : (l <? 0)%Z = false) by (apply Z.ltb_ge; lia).
  destruct (Z_lt_le_dec a (2 ^ 53)) as [Hsmall | Hbig].
  - rewrite (Hs Hsmall). simpl. apply approximates_round. nia.
  - assert (Hprod : (2 ^ 53 <= a * l)%Z) by nia.
    split; [lia|]. intros _.
    destruct (Hl Hbig) as [-> | (r & -> & Hr)]; simpl.
    + rewrite Hl0, Hln. left. reflexivity.
    + destruct (roundDouble_large (r * l) ltac:(nia)) as [-> | (r' & -> & Hr')];
        eauto.
Qed.

Lemma clampIndex_approximates (len : Z) (v : option number) (x : Z) :
  approximates v x -> (0 <= x)%Z -> (0 <= len < 2 ^ 53)%Z ->
  clampIndex len v = Z.min x len.
Proof.
  intros [Hs Hl] Hx Hlen.
  destruct (Z_lt_le_dec x (2 ^ 53)) as [Hsmall | Hbig].
  - rewrite (Hs Hsmall). simpl.
    destruct (Z.ltb_spec x 0); [lia | reflexivity].
  - destruct (Hl Hbig) as [-> | (r & -> & Hr)]; simpl; [lia|].
    destruct (Z.ltb_spec r 0); lia.
Qed.

Lemma ltb_approximates (len : Z) (v : option number) (x : Z) :
  approximates v x -> (0 <= x)%Z -> (0 <= len < 2 ^ 53)%Z ->
  ltb v (Some (Int len)) = (x <? len)%Z.
Proof.
  intros [Hs Hl] Hx Hlen.
  destruct (Z_lt_le_dec x (2 ^ 53)) as [Hsmall | Hbig].
  - rewrite (Hs Hsmall). reflexivity.
  - destruct (Z.ltb_spec x len); [lia|].
    destruct (Hl Hbig) as [-> | (r & -> & Hr)]; simpl; [reflexivity|].
    apply Z.ltb_ge. lia.
Qed.

(** The window that the clamped indices [Z.min a len] and [Z.min b len]
    cut from a list, for [0 <= a <= b]. *)
Lemma window_lookup {A} (a b : Z) (l : list A) (i : nat) :
  (0 <= a <= b)%Z ->
  take (Z.to_nat (Z.min b (Z.of_nat (length l)) - Z.min a (Z.of_nat (length l))))
       (drop (Z.to_nat (Z.min a (Z.of_nat (length l)))) l) !! i =
    if (Z.of_nat i <? b - a)%Z
    then l !! (Z.to_nat a + i)%nat
    else None.
Proof.
  intros H. set (len := Z.of_nat (length l)).
  destruct (Z.ltb_spec (Z.of_nat i) (b - a)) as [Hi|Hi].
  - destruct (decide (Z.of_nat i < Z.min b len - Z.min a len)%Z) as [Hlt|Hge].
    + rewrite lookup_take_lt by lia. rewrite lookup_drop. f_equal. lia.
    + rewrite lookup_take_ge by lia. symmetry. apply lookup_ge_None. lia.
  - apply lookup_take_ge. lia.
Qed.

(** The window of [slice] for [0 <= start <= end_]. *)
Lemma slice_lookup {A} (start end_ : Z) (l : list A) (i : nat) :
  (0 <= start <= end_)%Z ->
  slice (Some (Int start)) (Some (Int end_)) l !! i =
    if (Z.of_nat i <? end_ - start)%Z
    then l !! (Z.to_nat start + i)%nat
    else None.
Proof.
  intros H. unfold slice, clampIndex.
  destruct (Z.ltb_spec start 0); [lia|].
  destruct (Z.ltb_spec end_ 0); [lia|].
  apply window_lookup, H.
Qed.

Lemma slice_sublist {A} (start end_ : option number) (l : list A) :
  sublist (slice start end_ l) l.
Proof.
  unfold slice. etransitivity; [apply sublist_take | apply sublist_drop].
Qed.

(** The nearest integer does not cross an integer bound. *)
Lemma roundHalfEven_le (x d k : Z) :
  (0 < d)%Z -> (x <= k * d)%Z -> (roundHalfEven x d <= k)%Z.
Proof.
  intros Hd Hx. unfold roundHalfEven.
  pose proof (Z.div_mod x d ltac:(lia)) as Hdm.
  pose proof (Z.mod_pos_bound x d Hd) as Hr.
  destruct (Z.compare_spec (2 * (x mod d)) d) as [He | Hl | Hg];
    [destruct (Z.even (x / d))|..]; nia.
Qed.

Lemma roundHalfEven_gt (x d k : Z) :
  (0 < d)%Z -> (d < 2 * (x - k * d))%Z -> (k < roundHalfEven x d)%Z.
Proof.
  intros Hd Hx. unfold roundHalfEven.
  pose proof (Z.div_mod x d ltac:(lia)) as Hdm.
  pose proof (Z.mod_pos_bound x d Hd) as Hr.
  destruct (Z.compare_spec (2 * (x mod d)) d) as [He | Hl | Hg];
    [destruct (Z.even (x / d))|..]; nia.
Qed.

(** The double quotient of an array length by a finite integer that is
    at least 1 has the ceiling of the exact quotient: the quotient has
    more than 20 fraction bits, so that no integer lies between it and
    its rounding. *)
Lemma roundQ_ceiling (a b : Z) :
  (0 <= a < 2 ^ 32)%Z -> (0 < b < 2 ^ 1024)%Z ->
  exists q, roundQ (inject_Z a / inject_Z b) = Finite q /\
            ((Qceiling q - 1) * b < a <= Qceiling q * b)%Z.
Proof.
  intros Ha Hb. unfold roundQ.
  set (x := (inject_Z a / inject_Z b)%Q).
  pose proof (Qred_correct x) as Hred.
  pose proof (gcd_Qred x) as Hgcd.
  destruct (Qred x) as [n0 d0] eqn:Ex. cbn [Qnum Qden] in *.
  assert (Hcross : (n0 * b = a * Z.pos d0)%Z).
  { unfold x in Hred. unfold Qeq, Qdiv, Qmult, Qinv, inject_Z in Hred.
    destruct b as [|pb|pb]; try lia. simpl in Hred.
    rewrite Z.mul_1_r in Hred. exact Hred. }
  destruct (Z.eqb_spec n0 0) as [Hz | Hnz].
  - exists 0%Q. split; [reflexivity|].
    assert (Ha0 : a = 0%Z)
      by (subst n0; destruct Ha as [Ha _]; clear - Hcross Ha; nia).
    subst a. change (Qceiling 0) with 0%Z. destruct Hb as [Hb _].
    clear - Hb. lia.
  - assert (Hn0 : (0 < n0)%Z) by nia.
    assert (Hapos : (0 < a)%Z) by nia.
    rewrite (Z.abs_eq n0) by lia.
    set (d := Z.pos d0) in *.
    assert (Hd : (0 < d)%Z) by (unfold d; lia).
    assert (Hdb : (d <= b)%Z).
    { assert (Hdiv : (d | b)%Z).
      { apply (Z.gauss d n0 b).
        - exists a. lia.
        - rewrite Z.gcd_comm. exact Hgcd. }
      apply Z.divide_pos_le; [lia | exact Hdiv]. }
    assert (Hna : (n0 <= a)%Z) by (clear - Hcross Hdb Hd Hn0 Hapos; nia).
    assert (Hl : (Z.log2 n0 < 32)%Z) by (apply Z.log2_lt_pow2; lia).
    pose proof (Z.log2_nonneg d) as Hld0.
    set (e0 := (Z.log2 n0 - Z.log2 d - 52)%Z).
    cbv zeta. fold e0.
    set (e1 := if (_ <=? _)%Z then e0 else (e0 - 1)%Z).
    assert (He1 : (e0 - 1 <= e1 <= e0)%Z)
      by (unfold e1; destruct (_ <=? _)%Z; lia).
    set (e := Z.max e1 (-1074)).
    assert (Hneg : (e < 0)%Z) by (unfold e, e0 in *; lia).
    assert (Hmax0 : Z.max 0 e = 0%Z) by lia.
    assert (Hmaxe : Z.max 0 (- e) = (- e)%Z) by lia.
    rewrite Hmax0, Hmaxe. cbn [fst snd].
    replace (0 <=? e)%Z with false by (symmetry; apply Z.leb_gt; lia).
    cbn [andb]. rewrite Z.pow_0_r, !Z.mul_1_r.
    set (P := (2 ^ (- e))%Z).
    assert (HP : (0 < P)%Z) by (apply Z.pow_pos_nonneg; lia).
    assert (HPd : (d < P)%Z).
    { destruct (Z.max_spec e1 (-1074)) as [[_ Hm] | [_ Hm]]; fold e in Hm.
      - unfold P. rewrite Hm.
        assert (2 ^ 1024 < 2 ^ (- -1074))%Z by (apply Z.pow_lt_mono_r; lia).
        lia.
      - assert (Hld : (d < 2 ^ (Z.log2 d + 1))%Z) by (apply Z.log2_spec; lia).
        assert (2 ^ (Z.log2 d + 1) <= P)%Z.
        { unfold P. apply Z.pow_le_mono_r; [lia|]. unfold e0 in *. lia. }
        lia. }
    set (m := roundHalfEven (n0 * P) d).
    eexists. split; [reflexivity|].
    rewrite (Qceiling_comp _ _ (Qred_correct _)).
    rewrite Z.sgn_pos by lia. rewrite Z.mul_1_l.
    set (N := (- ((- a) / b))%Z).
    assert (HN : ((N - 1) * b < a <= N * b)%Z).
    { unfold N. pose proof (Z.div_mod (- a) b ltac:(lia)).
      pose proof (Z.mod_pos_bound (- a) b ltac:(lia)). nia. }
    assert (HNd : ((N - 1) * d < n0 <= N * d)%Z) by nia.
    assert (Hm1 : (m <= N * P)%Z).
    { apply roundHalfEven_le; [exact Hd | nia]. }
    assert (Hm2 : ((N - 1) * P < m)%Z).
    { apply roundHalfEven_gt; [exact Hd | nia]. }
    assert (HC : Qceiling (m # Z.to_pos P) = N).
    { unfold Qceiling, Qfloor. cbn [Qopp Qnum Qden].
      rewrite Z2Pos.id by exact HP.
      pose proof (Z.div_mod (- m) P ltac:(lia)).
      pose proof (Z.mod_pos_bound (- m) P ltac:(lia)). nia. }
    rewrite HC. exact HN.
Qed.

(** [Math.ceil(a / b)] is the least integer [n] with [a <= n * b]. *)
Lemma ceilDiv_spec (a b : Z) :
  (0 <= a < 2 ^ 32)%Z -> (0 < b < 2 ^ 1024)%Z ->
  exists n, ceilDiv a (Int b) = Some (Int n) /\ ((n - 1) * b < a <= n * b)%Z.
Proof.
  intros Ha Hb. destruct (roundQ_ceiling a b Ha Hb) as (q & Hq & Hn).
  exists (Qceiling q). split; [|exact Hn].
  unfold ceilDiv. destruct (Z.eqb_spec b 0); [lia|]. rewrite Hq. reflexivity.
Qed.

(** A finite number that [parseInt] returns is below [2^1024]. *)
Lemma roundDouble_bound (z r : Z) :
  roundDouble z = Int r -> (Z.abs r < 2 ^ 1024)%Z.
Proof.
  unfold roundDouble.
  set (r0 := if (Z.log2 (Z.abs z) <=? 52)%Z then Z.abs z else _).
  assert (Hr0 : (0 <= r0)%Z).
  { unfold r0. destruct (_ <=? _)%Z; [lia|].
    apply Z.shiftl_nonneg.
    assert (0 <= Z.shiftr (Z.abs z) (Z.log2 (Z.abs z) - 52))%Z
      by (apply Z.shiftr_nonneg; lia).
    destruct (_ || _); lia. }
  destruct (Z.leb_spec (Z.shiftl 1 1024) r0) as [|Hlt]; [discriminate|].
  intros [= <-]. rewrite Z.shiftl_1_l in Hlt.
  destruct (Z.sgn_spec z) as [[_ ->] | [[_ ->] | [_ ->]]]; lia.
Qed.

Lemma parseInt_bound (v : option qvalue) (z : Z) :
  parseInt v = Some (Int z) -> (Z.abs z < 2 ^ 1024)%Z.
Proof.
  unfold parseInt.
  destruct (match trimStart (queryToString v) with
            | EmptyString => _ | String _ _ => _ end) as [sign s2].
  destruct (match s2 with EmptyString => _ | String _ _ => _ end)
    as [radix s3].
  destruct (parseDigits radix s3 None) as [n|]; simpl; [|discriminate].
  intros [= H]. apply (roundDouble_bound _ _ H).
Qed.

Lemma orDefault_bound (v : option qvalue) (d z : Z) :
  (Z.abs d < 2 ^ 1024)%Z ->
  orDefault (parseInt v) (Int d) = Int z -> (Z.abs z < 2 ^ 1024)%Z.
Proof.
  intros Hd. destruct (parseInt v) as [[n|s]|] eqn:Hp; simpl.
  - destruct (n =? 0)%Z; intros [= <-]; [exact Hd|].
    apply (parseInt_bound _ _ Hp).
  - discriminate.
  - intros [= <-]. exact Hd.
Qed.

Lemma filter_sublist {A} (f : A -> bool) (l : list A) :
  sublist (List.filter f l) l.
Proof.
  induction l as [|x l IH]; simpl; [constructor|].
  destruct (f x); constructor; exact IH.
Qed.

Lemma filterByCategory_sublist c (l : list product) :
  sublist (filterByCategory c l) l.
Proof.
  unfold filterByCategory. destruct c as [[c| |]|]; try reflexivity.
  destruct (negb (String.eqb c "")); [apply filter_sublist | reflexivity].
Qed.

Lemma filterByStock_sublist s (l : list product) :
  sublist (filterByStock s l) l.
Proof.
  unfold filterByStock. destruct s as [s|]; [apply filter_sublist | reflexivity].
Qed.

Lemma filteredProducts_sublist q (l : list product) :
  sublist (filteredProducts q l) l.
Proof.
  unfold filteredProducts.
  etransitivity; [apply filterByStock_sublist | apply filterByCategory_sublist].
Qed.

(** What the router answers to a request for the listing. *)
Lemma getProducts_routed req uuid products ps :
  routed req ListProducts ps ->
  router req uuid products =
    (let q := req_query req in
     let filtered := filteredProducts q products in
     let page := orDefault (parseInt (query_page q)) 1%Z in
     let limit := orDefault (parseInt (query_limit q)) 10%Z in
     if categoryThrows (query_category q) products
     then errorHandler TypeError
     else if ltb (Some page) (Some (Int 1)) || ltb (Some limit) (Some (Int 1))
     then {| status := 400;
             payload := ErrorBody "Page and limit must be positive integers" |}
     else {| status := 200;
             payload := ProductsBody
               (slice (mul (sub (Some page) (Some (Int 1))) (Some limit))
                      (mul (Some page) (Some limit)) filtered)
               {| currentPage := page;
                  totalPages := ceilDiv (Z.of_nat (length filtered)) limit;
                  totalProducts := length filtered;
                  productsPerPage := limit;
                  hasNextPage :=
                    ltb (mul (Some page) (Some limit))
                        (Some (Int (Z.of_nat (length filtered))));
                  hasPrevPage := ltb (Some (Int 1)) (Some page) |} |},
     products).
Proof.
  intros Hr. rewrite (router_routed _ _ _ _ _ Hr).
  cbn [guards runMiddleware handlerOf]. unfold getProducts. cbv zeta.
  destruct (categoryThrows (query_category (req_query req)) products);
    [reflexivity|].
  destruct (ltb _ _ || ltb _ _); reflexivity.
Qed.

(** ** C5: the pagination window and its metadata *)



Example second_page_of_electronics :
  exists pg,
    fst (router getSecondPage "" seed) =
      {| status := 200;
         payload := ProductsBody
           [{| id := "5"; name := "Wireless Headphones";
               description := "Noise-cancelling wireless headphones";
               price := 150; category := "electronics"; inStock := true |}]
           pg |} /\
    totalPages pg = Some (Int 2) /\ totalProducts pg = 3%nat /\
    hasNextPage pg = false /\ hasPrevPage pg = true.
Proof. eexists. split; [vm_compute; reflexivity|]. repeat split. Qed.

(** ** C1: the defaults and the rejection of page and limit *)

(** A [page] or [limit] that parses to a negative integer is rejected. *)
Lemma pagination_negative_rejected req uuid products ps (n : Z) :
  routed req ListProducts ps ->
  categoryThrows (query_category (req_query req)) products = false ->
  (n < 0)%Z ->
  parseInt (query_page (req_query req)) = Some (Int n) \/
  parseInt (query_limit (req_query req)) = Some (Int n) ->
  router req uuid products =
    ({| status := 400;
        payload := ErrorBody "Page and limit must be positive integers" |},
     products).
Proof.
  intros Hr Ht Hn H. rewrite (getProducts_routed _ _ _ _ Hr). cbv zeta.
  rewrite Ht.
  assert (Hd : forall d, ltb (Some (orDefault (Some (Int n)) d)) (Some (Int 1))
                         = true).
  { intros d. simpl. destruct (Z.eqb_spec n 0); [lia|]. simpl.
    apply Z.ltb_lt. lia. }
  destruct H as [-> | ->]; rewrite Hd; [|rewrite orb_true_r]; reflexivity.
Qed.

(** An absent or non-numeric parameter ([parseInt] gives [NaN]) takes its
    default, and so does one that parses to zero: [0 || 1] is [1]. *)
Lemma pagination_defaults (v : option qvalue) (d : number) :
  parseInt v = None \/ parseInt v = Some 0%Z -> orDefault (parseInt v) d = d.
Proof. intros [-> | ->]; reflexivity. Qed.

Lemma parseInt_absent : parseInt None = None.
Proof. reflexivity. Qed.

(** C1, at the failing input.  [page=0] parses to the non-positive number
    0, and so does [limit=0]; neither request is rejected with 400: each
    is answered 200 with the default ([currentPage = 1], respectively
    [productsPerPage = 10]). *)
Theorem page_zero_is_served_with_default :
  parseInt (query_page (req_query getPageZero)) = Some 0%Z /\
  parseInt (query_limit (req_query getLimitZero)) = Some 0%Z /\
  (exists items pg,
     fst (router getPageZero "" seed) =
       {| status := 200; payload := ProductsBody items pg |} /\
     currentPage pg = 1%Z /\ productsPerPage pg = 10%Z) /\
  (exists items pg,
     fst (router getLimitZero "" seed) =
       {| status := 200; payload := ProductsBody items pg |} /\
     currentPage pg = 1%Z /\ productsPerPage pg = 10%Z).
Proof.
  split; [reflexivity|]. split; [reflexivity|].
  split; eexists; eexists; (split; [vm_compute; reflexivity|]);
    split; reflexivity.
Qed.

Example page_minus_one_rejected :
  fst (router (getList (listQuery None None (Some "-1") None)) "" seed) =
    {| status := 400;
       payload := ErrorBody "Page and limit must be positive integers" |}.
Proof. vm_compute. reflexivity. Qed.

(** ** C8: the stock filter *)

Lemma queryIs_spec (v : qvalue) (s : string) :
  queryIs v s = true <-> v = QStr s.
Proof.
  destruct v as [t| |]; simpl; [|split; discriminate..].
  rewrite String.eqb_eq. split; [intros ->; reflexivity | intros [= ->]; reflexivity].
Qed.



(** [inStock=yes] is read as [false]: only the coffee maker, which is out
    of stock, is listed. *)
Example inStock_yes_lists_out_of_stock :
  exists pg,
    fst (router getInStockYes "" seed) =
      {| status := 200;
         payload := ProductsBody
           [{| id := "3"; name := "Coffee Maker";
               description := "Programmable coffee maker with timer";
               price := 50; category := "kitchen"; inStock := false |}]
           pg |}.
Proof. eexists. vm_compute. reflexivity. Qed.

(** ** C7: search *)

Lemma toLowerCase_empty' (s : string) : toLowerCase s = "" -> s = "".
Proof. destruct s; [reflexivity | discriminate]. Qed.

Lemma searchProducts_routed req uuid products ps :
  routed req SearchProducts ps ->
  router req uuid products =
    (match query_q (req_query req) with
     | Some (QStr q) =>
         if String.eqb q ""
         then {| status := 400; payload := ErrorBody missingQueryMessage |}
         else {| status := 200;
                 payload :=
                   SearchBody q
                     (List.filter (matchesTerm (toLowerCase q)) products)
                     (length (List.filter (matchesTerm (toLowerCase q)) products)) |}
     | Some _ => errorHandler TypeError
     | None => {| status := 400; payload := ErrorBody missingQueryMessage |}
     end, products).
Proof.
  intros Hr. rewrite (router_routed _ _ _ _ _ Hr). simpl.
  unfold searchProducts.
  destruct (query_q (req_query req)) as [[q| |]|]; try reflexivity.
  destruct (String.eqb q ""); reflexivity.
Qed.

(** A GET whose path is [/api/products/search] (in any letter case, with
    or without a trailing slash) is dispatched to the search endpoint: its
    route is registered before [/api/products/:id]. *)
Lemma dispatch_search req :
  req_method req = GET ->
  pathTexts (req_path req) = ["api"; "products"; "search"] \/
  pathTexts (req_path req) = ["api"; "products"; "search"; ""] ->
  exists r, dispatch routes (req_method req) (req_path req) = Route r []
            /\ route_endpoint r = SearchProducts.
Proof.
  intros Hm Hp. unfold pathTexts in Hp. rewrite Hm.
  destruct Hp as [Hp | Hp];
    destruct (req_path req) as [|a [|b [|c [|d [|x l]]]]]; try discriminate;
    simpl in Hp.
  - injection Hp as Ha Hb Hc.
    assert (Hne : String.eqb (raw c) "" = false)
      by (destruct (raw c); [discriminate Hc | reflexivity]).
    eexists. split.
    + unfold routes. cbn [dispatch matchPath route_path].
      rewrite Ha, Hb, Hc, Hne. reflexivity.
    + reflexivity.
  - injection Hp as Ha Hb Hc Hd. apply toLowerCase_empty' in Hd.
    eexists. split.
    + unfold routes. cbn [dispatch matchPath route_path].
      rewrite Ha, Hb, Hc, Hd. reflexivity.
    + reflexivity.
Qed.

(** Registration order matters: the path of [/api/products/:id] matches
    the segments of [/api/products/search] too, with [id = "search"]. *)
Example search_matches_id_pattern :
  matchPath [Lit "api"; Lit "products"; Param "id"]
    (map plain ["api"; "products"; "search"])
  = Match [("id", "search")].
Proof. reflexivity. Qed.

(** C7, counterexample.  [q=a&q=b] reaches the handler as an array: [q]
    is present and not empty, and the request is answered 500, neither
    with 400 nor with a result set. *)
Lemma search_repeated_q_counterexample :
  routed getSearchRepeated SearchProducts [] /\
  query_q (req_query getSearchRepeated) = Some (QArr [QStr "a"; QStr "b"]) /\
  fst (router getSearchRepeated "" seed) =
    {| status := 500;
       payload := ErrorMessageBody "Internal Server Error"
                    "Something went wrong on the server" |} /\
  status (fst (router getSearchRepeated "" seed)) <> 400%nat /\
  status (fst (router getSearchRepeated "" seed)) <> 200%nat.
Proof.
  split; [dispatched|]. split; [reflexivity|]. split; [reflexivity|].
  split; vm_compute; discriminate.
Qed.

(** C7, amended.  A GET on [/api/products/search] is dispatched to the
    search endpoint and never to [/api/products/:id].  When [q] is absent
    or the empty string it is answered 400 with the missing-query
    message.  When [q] is a non-empty string it is answered 200 with the
    original term, the match count, and as results the products, in the
    order of the array, whose lower-cased name or lower-cased description
    contains the lower-cased term.  When [q] is an array or an object (a
    repeated or bracketed parameter) it is answered 500.  The array is
    unchanged in each case. *)
Theorem search_route_and_results req uuid products :
  req_method req = GET ->
  pathTexts (req_path req) = ["api"; "products"; "search"] \/
  pathTexts (req_path req) = ["api"; "products"; "search"; ""] ->
  routed req SearchProducts [] /\
  (forall ps, ~ routed req GetProduct ps) /\
  (query_q (req_query req) = None \/ query_q (req_query req) = Some (QStr "") ->
   router req uuid products =
     ({| status := 400; payload := ErrorBody missingQueryMessage |}, products)) /\
  (forall q : string, query_q (req_query req) = Some (QStr q) -> q <> "" ->
   exists results,
     router req uuid products =
       ({| status := 200; payload := SearchBody q results (length results) |},
        products) /\
     results = List.filter (matchesTerm (toLowerCase q)) products /\
     (forall p, matchesTerm (toLowerCase q) p = true <->
                occursIn (toLowerCase q) (toLowerCase (name p)) \/
                occursIn (toLowerCase q) (toLowerCase (description p))) /\
     sublist results products /\
     forall p,
       In p results <->
       In p products /\
       (occursIn (toLowerCase q) (toLowerCase (name p)) \/
        occursIn (toLowerCase q) (toLowerCase (description p)))) /\
  (forall v, query_q (req_query req) = Some v -> (forall s, v <> QStr s) ->
   router req uuid products =
     ({| status := 500;
         payload := ErrorMessageBody "Internal Server Error"
                      "Something went wrong on the server" |},
      products)).
Proof.
  intros Hm Hp.
  pose proof (dispatch_search req Hm Hp) as Hr.
  split; [exact Hr|]. split.
  { intros ps (r' & Hd' & He'). destruct Hr as (r & Hd & He).
    rewrite Hd in Hd'. injection Hd' as <- _. congruence. }
  rewrite (searchProducts_routed _ _ _ _ Hr). split; [|split].
  - intros [-> | ->]; reflexivity.
  - intros q -> Hq. destruct (String.eqb_spec q ""); [contradiction|].
    eexists. split; [reflexivity|]. split; [reflexivity|]. split.
    { intros p. unfold matchesTerm.
      rewrite orb_true_iff, !includes_spec. reflexivity. }
    split; [apply filter_sublist|].
    intros p. rewrite filter_In. unfold matchesTerm.
    rewrite orb_true_iff, !includes_spec. reflexivity.
  - intros v -> Hv. destruct v as [s| |]; [|reflexivity..].
    exfalso. apply (Hv s). reflexivity.
Qed.

Lemma search_route_and_results_witness :
  routed getSearchLaptop SearchProducts [] /\
  (forall ps, ~ routed getSearchLaptop GetProduct ps) /\
  (query_q (req_query getSearchLaptop) = None \/
   query_q (req_query getSearchLaptop) = Some (QStr "") ->
   router getSearchLaptop "" seed =
     ({| status := 400; payload := ErrorBody missingQueryMessage |}, seed)) /\
  (forall q : string, query_q (req_query getSearchLaptop) = Some (QStr q) ->
   q <> "" ->
   exists results,
     router getSearchLaptop "" seed =
       ({| status := 200; payload := SearchBody q results (length results) |},
        seed) /\
     results = List.filter (matchesTerm (toLowerCase q)) seed /\
     (forall p, matchesTerm (toLowerCase q) p = true <->
                occursIn (toLowerCase q) (toLowerCase (name p)) \/
                occursIn (toLowerCase q) (toLowerCase (description p))) /\
     sublist results seed /\
     forall p,
       In p results <->
       In p seed /\
       (occursIn (toLowerCase q) (toLowerCase (name p)) \/
        occursIn (toLowerCase q) (toLowerCase (description p)))) /\
  (forall v, query_q (req_query getSearchLaptop) = Some v ->
   (forall s, v <> QStr s) ->
   router getSearchLaptop "" seed =
     ({| status := 500;
         payload := ErrorMessageBody "Internal Server Error"
                      "Something went wrong on the server" |},
      seed)).
Proof.
  apply (search_route_and_results getSearchLaptop "" seed);
    [reflexivity | left; reflexivity].
Defined.

(** The search for [laptop] over the sample products finds the laptop
    only, whatever the letter case of the term. *)
Example search_laptop :
  fst (router getSearchLaptop "" seed) =
    {| status := 200;
       payload := SearchBody "LAPTOP"
         [{| id := "1"; name := "Laptop";
             description := "High-performance laptop with 16GB RAM";
             price := 1200; category := "electronics"; inStock := true |}]
         1 |}.
Proof. vm_compute. reflexivity. Qed.

(** ** C4: the statistics reducer *)

Lemma fold_total (l : list product) (acc : Stats.t) :
  Stats.total (fold_left statsStep l acc) = Stats.total acc.
Proof.
  revert acc. induction l as [|p l IH]; intros acc; simpl; [reflexivity|].
  rewrite IH. reflexivity.
Qed.

Lemma fold_totalValue (l : list product) (acc : Stats.t) :
  Stats.totalValue (fold_left statsStep l acc)
  = fold_left fadd (map price l) (Stats.totalValue acc).
Proof.
  revert acc. induction l as [|p l IH]; intros acc; simpl; [reflexivity|].
  rewrite IH. reflexivity.
Qed.

(** Rounding depends on the value of the rational only, not on the
    fraction that stands for it. *)
Lemma roundQ_proper (a b : Q) : (a == b)%Q -> roundQ a = roundQ b.
Proof.
  intros H. unfold roundQ. rewrite (Qred_complete a b H). reflexivity.
Qed.

Lemma roundQ_not_NaN (q : Q) : roundQ q <> NaN.
Proof.
  unfold roundQ. destruct (_ =? _)%Z; [discriminate|].
  destruct (_ && _); discriminate.
Qed.

Lemma fold_fadd_not_NaN (l : list Q) (x : double) :
  x <> NaN -> fold_left fadd l x <> NaN.
Proof.
  revert x. induction l as [|q l IH]; intros x Hx; simpl; [exact Hx|].
  apply IH. destruct x; simpl; [apply roundQ_not_NaN | discriminate | exact Hx].
Qed.

Lemma fdiv_not_NaN (x : double) (n : nat) : x <> NaN -> fdiv x (S n) <> NaN.
Proof.
  intros Hx. destruct x; simpl; [apply roundQ_not_NaN | discriminate | exact Hx].
Qed.

Lemma fdiv_Finite (a : Q) (n : nat) :
  (0 < n)%nat -> fdiv (Finite a) n = roundQ (a / inject_Z (Z.of_nat n)).
Proof. intros H. destruct n; [lia | reflexivity]. Qed.

Lemma sumPrices_snoc (l : list product) (p : product) :
  (sumPrices (l ++ [p]) == sumPrices l + price p)%Q.
Proof.
  induction l as [|x l IH]; simpl.
  - lra.
  - rewrite IH. lra.
Qed.

Lemma exactSums_snoc (l : list product) (p : product) :
  exactSums (l ++ [p]) -> exactSums l /\ isDouble (sumPrices (l ++ [p])).
Proof.
  intros H. split.
  - intros k Hk. specialize (H k). rewrite length_app in H. simpl in H.
    rewrite take_app_le in H by exact Hk. apply H. lia.
  - specialize (H (length (l ++ [p])) (le_n _)).
    rewrite firstn_all in H. exact H.
Qed.

(** When no addition rounds, the double sum is the sum. *)
Lemma fold_fadd_exact (l : list product) :
  exactSums l ->
  fold_left fadd (map price l) (Finite 0) = Finite (Qred (sumPrices l)).
Proof.
  induction l as [|p l IH] using rev_ind; intros H; [reflexivity|].
  apply exactSums_snoc in H as [Hl Hp].
  rewrite map_app, fold_left_app, (IH Hl). simpl.
  rewrite <- Hp. apply roundQ_proper.
  rewrite Qred_correct, sumPrices_snoc. reflexivity.
Qed.

Lemma unset_nonzero (q : Q) : ~ (q == 0)%Q -> unset (Some q) = false.
Proof.
  intros Hq. simpl. destruct (Qeq_bool q 0) eqn:E; [|reflexivity].
  apply Qeq_bool_iff in E. contradiction.
Qed.

Lemma Qltb_spec (x y : Q) : reflect (x < y)%Q (Qltb x y).
Proof.
  unfold Qltb. destruct (Qle_bool y x) eqn:E; constructor.
  - apply Qle_bool_iff in E. lra.
  - apply Qnot_le_lt. intros H. apply Qle_bool_iff in H. congruence.
Qed.

Lemma statsStep_range (seen : list product) (acc : Stats.t) (p : product) :
  nonzeroPrices seen ->
  rangeOf seen (Stats.range acc) ->
  rangeOf (seen ++ [p]) (Stats.range (statsStep acc p)).
Proof.
  intros Hseen [Hnil Hcons]. split.
  { intros H. destruct seen; discriminate. }
  intros _.
  destruct seen as [|p0 seen].
  - destruct (Hnil eq_refl) as [Hlo Hhi].
    exists (price p), (price p). simpl. rewrite Hlo, Hhi. simpl.
    repeat (split; [reflexivity || (left; reflexivity)|]).
    intros x [<- | []]. lra.
  - destruct (Hcons ltac:(discriminate))
      as (lo & hi & Hlo & Hhi & Hinlo & Hinhi & Hb).
    assert (Hlonz : ~ (lo == 0)%Q).
    { apply in_map_iff in Hinlo as (x & <- & Hx).
      unfold nonzeroPrices in Hseen. rewrite Forall_forall in Hseen.
      apply Hseen, list_elem_of_In, Hx. }
    assert (Hhinz : ~ (hi == 0)%Q).
    { apply in_map_iff in Hinhi as (x & <- & Hx).
      unfold nonzeroPrices in Hseen. rewrite Forall_forall in Hseen.
      apply Hseen, list_elem_of_In, Hx. }
    cbn [statsStep Stats.range Stats.min Stats.max]. rewrite Hlo, Hhi.
    rewrite (unset_nonzero lo Hlonz), (unset_nonzero hi Hhinz).
    cbn [orb].
    destruct (Qltb_spec (price p) lo) as [Hl|Hl],
             (Qltb_spec hi (price p)) as [Hh|Hh];
      eexists; eexists; (split; [reflexivity|]); (split; [reflexivity|]);
      rewrite map_app, !in_app_iff; cbn [map In];
      (split; [auto|]); (split; [auto|]);
      intros x Hx; apply in_app_iff in Hx as [Hx | [<- | []]];
      try (specialize (Hb x Hx)); lra.
Qed.

Lemma fold_range (l seen : list product) (acc : Stats.t) :
  nonzeroPrices (seen ++ l) ->
  rangeOf seen (Stats.range acc) ->
  rangeOf (seen ++ l) (Stats.range (fold_left statsStep l acc)).
Proof.
  revert seen acc. induction l as [|p l IH]; intros seen acc Hnz Hr.
  - rewrite app_nil_r. exact Hr.
  - simpl. replace (seen ++ p :: l)%list with ((seen ++ [p]) ++ l)%list in *
      by (rewrite <- app_assoc; reflexivity).
    apply IH; [exact Hnz|]. apply statsStep_range; [|exact Hr].
    apply Forall_app in Hnz as [Hnz _]. apply Forall_app in Hnz as [Hnz _].
    exact Hnz.
Qed.

Lemma positive_nonzeroPrices (products : list product) :
  positivePrices products -> nonzeroPrices products.
Proof.
  unfold positivePrices, nonzeroPrices. intros H.
  eapply Forall_impl; [exact H|]. intros p Hp Hz. simpl in Hp. lra.
Qed.

(** C4, counterexample.  The total value of two records priced [2^53]
    and 1 is [2^53], which is not the sum of the prices: the addition
    rounds.  And of three records priced 3, 0 and 5 the statistics give 5
    as the least price: a bound that is zero counts as unset. *)
Lemma stats_counterexample :
  Stats.totalValue (computeStats bigAndOne) = Finite 9007199254740992 /\
  (sumPrices bigAndOne == 9007199254740993)%Q /\
  (forall q, Stats.totalValue (computeStats bigAndOne) = Finite q ->
             ~ (q == sumPrices bigAndOne)%Q) /\
  Stats.range (computeStats freeInTheMiddle)
    = {| Stats.min := Some 5%Q; Stats.max := Some 5%Q |} /\
  In 0%Q (map price freeInTheMiddle).
Proof.
  split; [vm_compute; reflexivity|]. split; [vm_compute; reflexivity|].
  split.
  - intros q Hq. vm_compute in Hq. injection Hq as <-.
    vm_compute. discriminate.
  - split; [vm_compute; reflexivity | simpl; auto].
Qed.

(** C4, amended.  For every array of products the statistics have [total]
    equal to the number of records, and [totalValue] is the prices added
    from left to right in double arithmetic, which is their sum when no
    partial sum rounds.  On the empty array [total] is 0, [averagePrice]
    is 0 and both bounds of the price range are [null].  On a non-empty
    array [averagePrice] is the double quotient of [totalValue] by
    [total], never NaN, and the quotient of the sum when nothing rounds;
    and when no price is zero (as when all are positive) the bounds are
    the least and the greatest price. *)
Theorem stats_totals_average_and_range (products : list product) :
  Stats.total (computeStats products) = length products /\
  Stats.totalValue (computeStats products)
    = fold_left fadd (map price products) (Finite 0) /\
  (exactSums products ->
   Stats.totalValue (computeStats products)
     = Finite (Qred (sumPrices products))) /\
  (products = [] ->
   Stats.total (computeStats products) = 0%nat /\
   Stats.averagePrice (computeStats products) = Finite 0 /\
   Stats.range (computeStats products)
     = {| Stats.min := None; Stats.max := None |}) /\
  (products <> [] ->
   Stats.averagePrice (computeStats products)
     = fdiv (Stats.totalValue (computeStats products)) (length products) /\
   Stats.averagePrice (computeStats products) <> NaN /\
   (exactSums products ->
    isDouble (sumPrices products / inject_Z (Z.of_nat (length products))) ->
    Stats.averagePrice (computeStats products)
      = Finite (Qred (sumPrices products
                      / inject_Z (Z.of_nat (length products))))) /\
   (nonzeroPrices products ->
    exists lo hi,
      Stats.range (computeStats products)
        = {| Stats.min := Some lo; Stats.max := Some hi |} /\
      In lo (map price products) /\ In hi (map price products) /\
      forall p, In p products -> (lo <= price p <= hi)%Q)).
Proof.
  unfold computeStats. cbn [Stats.total Stats.totalValue
    Stats.averagePrice Stats.range].
  rewrite fold_total, fold_totalValue. cbn [statsInit Stats.total Stats.totalValue].
  split; [reflexivity|]. split; [reflexivity|].
  split; [apply fold_fadd_exact|]. split.
  - intros ->. simpl. auto.
  - intros Hne.
    destruct products as [|p0 l] eqn:E; [contradiction|]. rewrite <- E in *.
    replace (0 <? length products)%nat with true by (rewrite E; reflexivity).
    split; [reflexivity|]. split; [|split].
    + replace (length products) with (S (length l)) by (rewrite E; reflexivity).
      apply fdiv_not_NaN, fold_fadd_not_NaN. discriminate.
    + intros Hex Hd. rewrite (fold_fadd_exact _ Hex).
      rewrite fdiv_Finite by (rewrite E; simpl; lia).
      rewrite <- Hd. apply roundQ_proper. rewrite Qred_correct. reflexivity.
    + intros Hnz.
      destruct (fold_range products [] (statsInit products) Hnz) as [_ Hr].
      { split; [auto | contradiction]. }
      destruct (Hr ltac:(rewrite E; discriminate))
        as (lo & hi & Hlo & Hhi & Hinlo & Hinhi & Hb).
      exists lo, hi. simpl in *.
      destruct (Stats.range (fold_left statsStep products (statsInit products)))
        as [mn mx]. simpl in *. subst mn mx. auto.
Qed.

Lemma seed_positivePrices : positivePrices seed.
Proof. unfold positivePrices, seed. repeat constructor. Qed.

Lemma stats_totals_average_and_range_witness :
  Stats.total (computeStats seed) = length seed /\
  Stats.totalValue (computeStats seed)
    = fold_left fadd (map price seed) (Finite 0) /\
  (exactSums seed ->
   Stats.totalValue (computeStats seed) = Finite (Qred (sumPrices seed))) /\
  (seed = [] ->
   Stats.total (computeStats seed) = 0%nat /\
   Stats.averagePrice (computeStats seed) = Finite 0 /\
   Stats.range (computeStats seed)
     = {| Stats.min := None; Stats.max := None |}) /\
  (seed <> [] ->
   Stats.averagePrice (computeStats seed)
     = fdiv (Stats.totalValue (computeStats seed)) (length seed) /\
   Stats.averagePrice (computeStats seed) <> NaN /\
   (exactSums seed ->
    isDouble (sumPrices seed / inject_Z (Z.of_nat (length seed))) ->
    Stats.averagePrice (computeStats seed)
      = Finite (Qred (sumPrices seed / inject_Z (Z.of_nat (length seed))))) /\
   (nonzeroPrices seed ->
    exists lo hi,
      Stats.range (computeStats seed)
        = {| Stats.min := Some lo; Stats.max := Some hi |} /\
      In lo (map price seed) /\ In hi (map price seed) /\
      forall p, In p seed -> (lo <= price p <= hi)%Q)).
Proof. exact (stats_totals_average_and_range seed). Defined.

(** On the sample data nothing rounds and no price is zero. *)
Example seed_exact_nonzero :
  exactSums seed /\
  isDouble (sumPrices seed / inject_Z (Z.of_nat (length seed))) /\
  nonzeroPrices seed.
Proof.
  split; [|split].
  - intros k Hk. simpl in Hk.
    do 6 (destruct k as [|k]; [vm_compute; reflexivity|]). lia.
  - vm_compute. reflexivity.
  - apply positive_nonzeroPrices, seed_positivePrices.
Qed.

Example stats_of_seed :
  Stats.total (computeStats seed) = 5%nat /\
  Stats.inStock (computeStats seed) = 4%nat /\
  Stats.outOfStock (computeStats seed) = 1%nat /\
  Stats.totalValue (computeStats seed) = Finite 2500 /\
  Stats.averagePrice (computeStats seed) = Finite 500 /\
  Stats.range (computeStats seed)
    = {| Stats.min := Some 50%Q; Stats.max := Some 1200%Q |} /\
  Stats.byCategory (computeStats seed) !! "electronics" = Some (Stats.Count 3).
Proof. vm_compute. repeat split. Qed.

Example stats_of_empty :
  Stats.total (computeStats []) = 0%nat /\
  Stats.averagePrice (computeStats []) = Finite 0 /\
  Stats.range (computeStats []) = {| Stats.min := None; Stats.max := None |}.
Proof. repeat split. Qed.

(** A category named as a property that every object inherits is not
    counted: [+ 1] appends to the text of the inherited value. *)
Example stats_of_constructors :
  Stats.byCategory (computeStats constructors) !! "constructor"
  = Some (Stats.Text "function Object() { [native code] }11").
Proof. vm_compute. reflexivity. Qed.

(** ** The price invariant of the store *)

Lemma validateProduct_None (req : request) :
  validateProduct req = None -> validationErrors (req_body req) = [].
Proof.
  unfold validateProduct.
  destruct (validationErrors (req_body req)); [reflexivity | discriminate].
Qed.

(** The read handlers leave the array as it is, also when they throw. *)
Lemma getProducts_store ps req uuid products :
  snd (getProducts ps req uuid products) = products.
Proof.
  unfold getProducts. cbv zeta.
  destruct (categoryThrows _ _); [reflexivity|].
  destruct (_ || _); reflexivity.
Qed.

Lemma searchProducts_store ps req uuid products :
  snd (searchProducts ps req uuid products) = products.
Proof.
  unfold searchProducts.
  destruct (query_q (req_query req)) as [[q| |]|]; try reflexivity.
  destruct (String.eqb q ""); reflexivity.
Qed.

Lemma handler_keeps_prices_positive e ps req uuid products :
  positivePrices products ->
  runMiddleware (guards e) req = None ->
  positivePrices (snd (handlerOf e ps req uuid products)).
Proof.
  intros Hpos Hg. destruct e; simpl in *; try exact Hpos.
  - rewrite getProducts_store. exact Hpos.
  - rewrite searchProducts_store. exact Hpos.
  - unfold getProductById. destruct (List.find _ products); exact Hpos.
  - destruct (authMiddleware req); [discriminate|].
    destruct (validateProduct req) eqn:Ev; [discriminate|].
    apply validateProduct_None, validated_fields in Ev
      as (n & d & p & c & Hn & _ & Hd & _ & Hp & Hp0 & Hc & _ & _).
    unfold createProduct. rewrite Hn, Hd, Hp, Hc. simpl.
    apply Forall_app. split; [exact Hpos|]. repeat constructor. exact Hp0.
  - destruct (authMiddleware req); [discriminate|].
    destruct (validateProduct req) eqn:Ev; [discriminate|].
    apply validateProduct_None, validated_fields in Ev
      as (n & d & p & c & Hn & _ & Hd & _ & Hp & Hp0 & Hc & _ & _).
    unfold updateProduct.
    destruct (findIndex _ products) as [i|]; [|exact Hpos].
    destruct (products !! i) as [old|]; [|exact Hpos].
    rewrite Hn, Hd, Hp, Hc. simpl.
    apply Forall_insert; [exact Hpos | exact Hp0].
  - unfold deleteProduct.
    destruct (findIndex _ products) as [i|]; [|exact Hpos].
    destruct (products !! i) as [old|]; [|exact Hpos].
    simpl. apply Forall_delete, Hpos.
Qed.

(** Every request leaves the prices in the array positive, and the sample
    products have positive prices: the invariant holds in every state
    that the server reaches. *)
Lemma router_keeps_prices_positive req uuid products :
  positivePrices products -> positivePrices (snd (router req uuid products)).
Proof.
  intros Hpos. unfold router.
  destruct (dispatch routes (req_method req) (req_path req)) as [| |r ps] eqn:Hd;
    [exact Hpos..|].
  apply dispatch_Some in Hd as (Hin & _ & _). rewrite (routes_guards r Hin).
  destruct (runMiddleware (guards (route_endpoint r)) req) eqn:Hg; [exact Hpos|].
  pose proof (handler_keeps_prices_positive
                (route_endpoint r) ps req uuid products Hpos Hg) as H.
  destruct (handlerOf (route_endpoint r) ps req uuid products) as [[res|err] after];
    exact H.
Qed.

Lemma reachable_positivePrices products :
  reachable products -> positivePrices products.
Proof.
  induction 1 as [|[req|req] uuid products _ IH].
  - exact seed_positivePrices.
  - apply router_keeps_prices_positive, IH.
  - exact IH.
Qed.

(** * Further properties of the handlers *)

(** ** Trimming and lower-casing *)

Lemma trimStart_length (s : string) :
  (String.length (trimStart s) <= String.length s)%nat.
Proof.
  induction s as [|c s IH]; simpl; [lia|].
  destruct (isWhiteSpace c); simpl; lia.
Qed.

Lemma trimStart_fixed (c : ascii) (s : string) :
  trimStart (String c s) = String c s -> isWhiteSpace c = false.
Proof.
  simpl. destruct (isWhiteSpace c); [|reflexivity].
  intros H. pose proof (trimStart_length s) as Hl. rewrite H in Hl.
  simpl in Hl. lia.
Qed.

Lemma trimStart_idempotent (s : string) :
  trimStart (trimStart s) = trimStart s.
Proof.
  induction s as [|c s IH]; simpl; [reflexivity|].
  destruct (isWhiteSpace c) eqn:E; [exact IH|]. simpl. rewrite E. reflexivity.
Qed.

Lemma trimEnd_idempotent (s : string) : trimEnd (trimEnd s) = trimEnd s.
Proof.
  induction s as [|c s IH]; simpl; [reflexivity|].
  destruct (trimEnd s) as [|a t] eqn:E.
  - destruct (isWhiteSpace c) eqn:Ec; simpl; [reflexivity|].
    rewrite Ec. reflexivity.
  - cbn [trimEnd] in *. rewrite IH. reflexivity.
Qed.

Lemma trimStart_trimEnd (s : string) :
  trimStart s = s -> trimStart (trimEnd s) = trimEnd s.
Proof.
  destruct s as [|c s]; [reflexivity|]. intros H.
  apply trimStart_fixed in H. cbn [trimEnd].
  destruct (trimEnd s); [rewrite H|]; simpl; rewrite H; reflexivity.
Qed.

(** [trim] is idempotent. *)
Lemma trim_idempotent (s : string) : trim (trim s) = trim s.
Proof.
  unfold trim.
  rewrite (trimStart_trimEnd (trimStart s) (trimStart_idempotent s)).
  apply trimEnd_idempotent.
Qed.

Lemma lowerChar_idempotent (c : ascii) : lowerChar (lowerChar c) = lowerChar c.
Proof. destruct c as [[] [] [] [] [] [] [] []]; reflexivity. Qed.

Lemma isWhiteSpace_lowerChar (c : ascii) :
  isWhiteSpace (lowerChar c) = isWhiteSpace c.
Proof. destruct c as [[] [] [] [] [] [] [] []]; reflexivity. Qed.

Lemma toLowerCase_idempotent (s : string) :
  toLowerCase (toLowerCase s) = toLowerCase s.
Proof.
  induction s as [|c s IH]; simpl; [reflexivity|].
  rewrite lowerChar_idempotent, IH. reflexivity.
Qed.

Lemma toLowerCase_app (s t : string) :
  toLowerCase (s ++ t) = toLowerCase s ++ toLowerCase t.
Proof.
  induction s as [|c s IH]; simpl; [reflexivity|]. rewrite IH. reflexivity.
Qed.

Lemma toLowerCase_empty (s : string) : toLowerCase s = "" -> s = "".
Proof. destruct s; [reflexivity | discriminate]. Qed.

Lemma trimStart_toLowerCase (s : string) :
  trimStart (toLowerCase s) = toLowerCase (trimStart s).
Proof.
  induction s as [|c s IH]; simpl; [reflexivity|].
  rewrite isWhiteSpace_lowerChar. destruct (isWhiteSpace c); [exact IH|].
  reflexivity.
Qed.

Lemma trimEnd_toLowerCase (s : string) :
  trimEnd (toLowerCase s) = toLowerCase (trimEnd s).
Proof.
  induction s as [|c s IH]; simpl; [reflexivity|].
  rewrite IH, isWhiteSpace_lowerChar.
  destruct (trimEnd s); simpl; [destruct (isWhiteSpace c)|]; reflexivity.
Qed.

(** Trimming and lower-casing commute. *)
Lemma trim_toLowerCase (s : string) :
  trim (toLowerCase s) = toLowerCase (trim s).
Proof.
  unfold trim. rewrite trimStart_toLowerCase. apply trimEnd_toLowerCase.
Qed.

(** The record built from validated fields is in normal form. *)
Lemma normalized_wellFormed i n d p c s :
  trim n <> "" -> trim d <> "" -> (0 < p)%Q -> trim c <> "" ->
  wellFormed (normalized i n d p c s).
Proof.
  intros Hn Hd Hp Hc. unfold wellFormed, normalized. simpl.
  rewrite !trim_idempotent, trim_toLowerCase, trim_idempotent,
    toLowerCase_idempotent.
  repeat (split; [assumption || reflexivity|]).
  intros H. apply Hc, toLowerCase_empty, H.
Qed.

(** ** What the validation stage accepts *)

Lemma trim_nonempty (s : string) : trim s <> "" -> s <> "".
Proof. intros H ->. apply H. reflexivity. Qed.

Lemma notNonEmptyString_str (s : string) :
  trim s <> "" -> notNonEmptyString (Some (VStr s)) = false.
Proof.
  intros H. unfold notNonEmptyString. simpl.
  pose proof (trim_nonempty s H) as H0. apply String.eqb_neq in H0.
  rewrite H0. simpl. destruct (trim s); [contradiction | reflexivity].
Qed.

(** X1.  The validation middleware calls [next()] exactly for the bodies
    whose name, description and category are strings with a character
    that is not white space, whose price is a number greater than zero
    and whose inStock is absent or a boolean. *)
Theorem validateProduct_passes_exactly (req : request) :
  validateProduct req = None <->
  (exists n, body_name (req_body req) = Some (VStr n) /\ trim n <> "") /\
  (exists d, body_description (req_body req) = Some (VStr d) /\ trim d <> "") /\
  (exists p, body_price (req_body req) = Some (VNum p) /\ (0 < p)%Q) /\
  (exists c, body_category (req_body req) = Some (VStr c) /\ trim c <> "") /\
  (body_inStock (req_body req) = None \/
   exists s, body_inStock (req_body req) = Some (VBool s)).
Proof.
  split.
  - intros H. apply validateProduct_None, validated_fields in H
      as (n & d & p & c & Hn & Hn' & Hd & Hd' & Hp & Hp' & Hc & Hc' & Hs).
    repeat (split; [eauto|]). exact Hs.
  - intros ((n & Hn & Hn') & (d & Hd & Hd') & (p & Hp & Hp') & (c & Hc & Hc') & Hs).
    apply validateProduct_accepts. unfold validationErrors.
    rewrite Hn, Hd, Hp, Hc, !notNonEmptyString_str by assumption.
    assert (notPositiveNumber (Some (VNum p)) = false) as ->.
    { unfold notPositiveNumber. simpl. destruct (Qle_bool p 0) eqn:E; [|reflexivity].
      apply Qle_bool_iff in E. lra. }
    destruct Hs as [-> | [s ->]]; reflexivity.
Qed.

(** ** The four ways in which a request leaves the array *)

Lemma authMiddleware_None (req : request) :
  authMiddleware req = None -> x_api_key req = Some secret.
Proof.
  unfold authMiddleware, strictEq. destruct (x_api_key req) as [k|]; [|discriminate].
  destruct (String.eqb k ""); [discriminate|].
  destruct (String.eqb_spec k secret) as [-> | _]; [reflexivity | discriminate].
Qed.

(** After a request the array is unchanged, or has one record appended by
    an accepted create, or has one record overwritten in place by an
    accepted update, or has lost one record to an authenticated delete. *)
Lemma router_store_cases req uuid products :
  snd (router req uuid products) = products \/
  (exists ps n d p c s,
     routed req CreateProduct ps /\ x_api_key req = Some secret /\
     trim n <> "" /\ trim d <> "" /\ (0 < p)%Q /\ trim c <> "" /\
     snd (router req uuid products)
       = (products ++ [normalized uuid n d p c s])%list) \/
  (exists ps i old n d p c s,
     routed req UpdateProduct ps /\ x_api_key req = Some secret /\
     products !! i = Some old /\
     trim n <> "" /\ trim d <> "" /\ (0 < p)%Q /\ trim c <> "" /\
     snd (router req uuid products)
       = <[i := normalized (id old) n d p c s]> products) \/
  (exists ps i old,
     routed req DeleteProduct ps /\ x_api_key req = Some secret /\
     products !! i = Some old /\
     snd (router req uuid products) = delete i products).
Proof.
  unfold router.
  destruct (dispatch routes (req_method req) (req_path req)) as [| |r ps] eqn:Hd;
    [left; reflexivity..|].
  assert (Hr : routed req (route_endpoint r) ps) by (exists r; auto).
  apply dispatch_Some in Hd as (Hin & _ & _). rewrite (routes_guards r Hin).
  destruct (route_endpoint r) eqn:Ee; cbn [guards runMiddleware handlerOf].
  - left. reflexivity.
  - left. pose proof (getProducts_store ps req uuid products) as Hs.
    destruct (getProducts ps req uuid products) as [[res|err] after]; exact Hs.
  - left. pose proof (searchProducts_store ps req uuid products) as Hs.
    destruct (searchProducts ps req uuid products) as [[res|err] after]; exact Hs.
  - left. reflexivity.
  - left. unfold getProductById. destruct (List.find _ products); reflexivity.
  - destruct (authMiddleware req) eqn:Ea; [left; reflexivity|].
    destruct (validateProduct req) eqn:Ev; [left; reflexivity|].
    apply authMiddleware_None in Ea.
    apply validateProduct_None, validated_fields in Ev
      as (n & d & p & c & Hn & Hn' & Hdd & Hd' & Hp & Hp' & Hc & Hc' & _).
    right. left. unfold createProduct. rewrite Hn, Hdd, Hp, Hc. simpl.
    exists ps, n, d, p, c. eexists. repeat (split; [eassumption|]). reflexivity.
  - destruct (authMiddleware req) eqn:Ea; [left; reflexivity|].
    destruct (validateProduct req) eqn:Ev; [left; reflexivity|].
    apply authMiddleware_None in Ea.
    apply validateProduct_None, validated_fields in Ev
      as (n & d & p & c & Hn & Hn' & Hdd & Hd' & Hp & Hp' & Hc & Hc' & _).
    unfold updateProduct.
    destruct (findIndex _ products) as [i|] eqn:Hi; [|left; reflexivity].
    destruct (findIndex_Some _ _ _ Hi) as (old & Hold & _).
    rewrite Hold, Hn, Hdd, Hp, Hc. simpl. right. right. left.
    exists ps, i, old, n, d, p, c. eexists.
    repeat (split; [eassumption|]). reflexivity.
  - destruct (authMiddleware req) eqn:Ea; [left; reflexivity|].
    apply authMiddleware_None in Ea. unfold deleteProduct.
    destruct (findIndex _ products) as [i|] eqn:Hi; [|left; reflexivity].
    destruct (findIndex_Some _ _ _ Hi) as (old & Hold & _).
    rewrite Hold. simpl. right. right. right.
    exists ps, i, old. auto.
Qed.

Lemma app_store_cases i uuid products :
  snd (app i uuid products) = products \/
  exists req, i = Decoded req /\
              snd (app i uuid products) = snd (router req uuid products).
Proof. destruct i as [req|req]; [right; eauto | left; reflexivity]. Qed.

(** ** Which requests change the array, and by how much *)

(** X2.  A request without the exact secret in [x-api-key], or with a
    method other than POST, PUT and DELETE, leaves the products array as
    it is, whatever its path, query and body, and also when its body is
    malformed. *)
Theorem request_without_key_or_write_method_keeps_store req uuid products :
  x_api_key req <> Some secret \/ isWriteMethod (req_method req) = false ->
  snd (app (Decoded req) uuid products) = products /\
  snd (app (Malformed req) uuid products) = products.
Proof.
  intros H. split; [|reflexivity]. cbn [app].
  destruct (router_store_cases req uuid products)
    as [Hs | [(ps & n & d & p & c & s & Hr & Hk & _)
       | [(ps & i & old & n & d & p & c & s & Hr & Hk & _)
       | (ps & i & old & Hr & Hk & _)]]]; [exact Hs| | |];
    apply routed_method in Hr; destruct H as [H | H];
    try contradiction; rewrite Hr in H; discriminate.
Qed.

Lemma request_without_key_or_write_method_keeps_store_witness :
  snd (app (Decoded (getById "1")) "" seed) = seed /\
  snd (app (Malformed (getById "1")) "" seed) = seed.
Proof.
  apply (request_without_key_or_write_method_keeps_store (getById "1") "" seed).
  right. reflexivity.
Defined.

(** X3.  One request changes the length of the array by at most one: a
    POST leaves it or adds one record, a DELETE leaves it or removes one,
    and every other request, PUT included, leaves the length as it is. *)
Theorem request_changes_length_by_at_most_one i uuid products :
  let req := match i with Decoded r | Malformed r => r end in
  let after := snd (app i uuid products) in
  match req_method req with
  | POST => length after = length products \/ length after = S (length products)
  | DELETE => length after = length products \/ S (length after) = length products
  | _ => length after = length products
  end.
Proof.
  cbv zeta. destruct i as [req|req]; cbn [app].
  2: { simpl. destruct (req_method req); auto. }
  destruct (router_store_cases req uuid products)
    as [Hs | [(ps & n & d & p & c & s & Hr & _ & _ & _ & _ & _ & Hs)
       | [(ps & i & old & n & d & p & c & s & Hr & _ & Hold & _ & _ & _ & _ & Hs)
       | (ps & i & old & Hr & _ & Hold & Hs)]]]; rewrite Hs.
  - destruct (req_method req); auto.
  - apply routed_method in Hr. rewrite Hr. right.
    rewrite length_app. simpl. lia.
  - apply routed_method in Hr. rewrite Hr. apply length_insert.
  - apply routed_method in Hr. rewrite Hr. right.
    rewrite length_delete by eauto. apply lookup_lt_Some in Hold. lia.
Qed.

(** ** Invariants of the array *)

Lemma seed_wellFormed : Forall wellFormed seed.
Proof.
  unfold seed, wellFormed.
  repeat constructor; simpl; try reflexivity; discriminate.
Qed.

Lemma router_keeps_wellFormed req uuid products :
  Forall wellFormed products ->
  Forall wellFormed (snd (router req uuid products)).
Proof.
  intros H.
  destruct (router_store_cases req uuid products)
    as [Hs | [(ps & n & d & p & c & s & _ & _ & Hn & Hd & Hp & Hc & Hs)
       | [(ps & i & old & n & d & p & c & s & _ & _ & _ & Hn & Hd & Hp & Hc & Hs)
       | (ps & i & old & _ & _ & _ & Hs)]]]; rewrite Hs.
  - exact H.
  - apply Forall_app. split; [exact H|]. constructor; [|constructor].
    apply normalized_wellFormed; assumption.
  - apply Forall_insert; [exact H|]. apply normalized_wellFormed; assumption.
  - apply Forall_delete, H.
Qed.

(** X4.  In every state that the server reaches from the sample data,
    each stored record is in normal form: name, description and category
    are trimmed and not empty, the category is in lower case, and the
    price is positive. *)
Theorem reachable_records_are_normalized products :
  reachable products -> Forall wellFormed products.
Proof.
  induction 1 as [|[req|req] uuid products _ IH].
  - exact seed_wellFormed.
  - apply router_keeps_wellFormed, IH.
  - exact IH.
Qed.

Lemma reachable_records_are_normalized_witness :
  Forall wellFormed (snd (app (Decoded (postBody paddedBody)) "u-6" seed)).
Proof.
  apply (reachable_records_are_normalized
           (snd (app (Decoded (postBody paddedBody)) "u-6" seed))).
  apply reachable_step, reachable_seed.
Defined.

Lemma map_id_insert (products : list product) i old new :
  products !! i = Some old -> id new = id old ->
  map id (<[i := new]> products) = map id products.
Proof.
  revert i. induction products as [|x l IH]; intros [|i]; simpl; try discriminate.
  - intros [= ->] ->. reflexivity.
  - intros H1 H2. rewrite (IH i H1 H2). reflexivity.
Qed.

Lemma map_id_delete (products : list product) i :
  sublist (map id (delete i products)) (map id products).
Proof.
  revert i. induction products as [|x l IH]; intros [|i]; simpl.
  - constructor.
  - constructor.
  - apply sublist_cons. reflexivity.
  - apply sublist_skip, IH.
Qed.

(** X5.  If no two records have the same id and the id that [uuidv4]
    generates is not the id of a record, then after any request no two
    records have the same id. *)
Theorem request_keeps_ids_unique i uuid products :
  uniqueIds products ->
  ~ In uuid (map id products) ->
  uniqueIds (snd (app i uuid products)).
Proof.
  unfold uniqueIds. intros Hu Hfresh.
  destruct i as [req|req]; cbn [app]; [|exact Hu].
  destruct (router_store_cases req uuid products)
    as [Hs | [(ps & n & d & p & c & s & _ & _ & _ & _ & _ & _ & Hs)
       | [(ps & i & old & n & d & p & c & s & _ & _ & Hold & _ & _ & _ & _ & Hs)
       | (ps & i & old & _ & _ & _ & Hs)]]]; rewrite Hs.
  - exact Hu.
  - rewrite map_app. simpl. apply NoDup_app. split; [exact Hu|]. split.
    + intros x Hx Hx'. apply list_elem_of_In in Hx, Hx'.
      destruct Hx' as [<- | []]. contradiction.
    + apply NoDup_singleton.
  - rewrite (map_id_insert products i old); [exact Hu | exact Hold | reflexivity].
  - eapply sublist_NoDup; [exact Hu | apply map_id_delete].
Qed.

Lemma request_keeps_ids_unique_witness :
  uniqueIds (snd (app (Decoded (postBody testBody)) "u-6" seed)).
Proof.
  apply (request_keeps_ids_unique (Decoded (postBody testBody)) "u-6" seed).
  - unfold uniqueIds, seed. simpl.
    repeat (constructor; [rewrite list_elem_of_In; simpl; intuition discriminate|]).
    constructor.
  - simpl. intuition discriminate.
Defined.

(** ** Lookups by id *)

Lemma findIndex_None {A} (f : A -> bool) (l : list A) :
  Forall (fun x => f x = false) l -> findIndex f l = None.
Proof.
  induction 1 as [|x l Hx _ IH]; simpl; [reflexivity|].
  rewrite Hx, IH. reflexivity.
Qed.

Lemma find_None_Forall {A} (f : A -> bool) (l : list A) :
  Forall (fun x => f x = false) l -> List.find f l = None.
Proof.
  induction 1 as [|x l Hx _ IH]; simpl; [reflexivity|]. rewrite Hx. exact IH.
Qed.

Lemma findIndex_exists {A} (f : A -> bool) (l : list A) (x : A) :
  In x l -> f x = true -> exists i, findIndex f l = Some i.
Proof.
  induction l as [|y l IH]; simpl; [contradiction|].
  intros Hin Hx. destruct (f y) eqn:Ey; [eauto|].
  destruct Hin as [-> | Hin]; [congruence|].
  destruct (IH Hin Hx) as [i ->]. simpl. eauto.
Qed.

(** After [l[i] = new] the first match of [f] is still at [i], and it is
    [new], when [new] satisfies [f]. *)
Lemma findIndex_insert {A} (f : A -> bool) (l : list A) (i : nat) (new : A) :
  findIndex f l = Some i -> f new = true ->
  findIndex f (<[i := new]> l) = Some i /\
  List.find f (<[i := new]> l) = Some new.
Proof.
  revert i. induction l as [|x l IH]; intros i; simpl; [discriminate|].
  destruct (f x) eqn:Ex.
  - intros [= <-] Hn. simpl. rewrite Hn. auto.
  - destruct (findIndex f l) as [k|] eqn:Ek; simpl; [|discriminate].
    intros [= <-] Hn. simpl. rewrite Ex.
    destruct (IH k eq_refl Hn) as [-> ->]. auto.
Qed.

Lemma find_delete_other {A} (f : A -> bool) (l : list A) (i : nat) (x : A) :
  l !! i = Some x -> f x = false -> List.find f (delete i l) = List.find f l.
Proof.
  revert i. induction l as [|y l IH]; intros [|i]; simpl; try discriminate.
  - intros [= ->] ->. reflexivity.
  - intros Hi Hx. destruct (f y); [reflexivity|]. apply (IH i Hi Hx).
Qed.

Lemma hasId_Some (x : string) (p : product) :
  hasId (Some x) p = true <-> id p = x.
Proof. unfold hasId, strictEq. apply String.eqb_eq. Qed.

Lemma hasId_false (x : string) (p : product) :
  id p <> x -> hasId (Some x) p = false.
Proof. unfold hasId, strictEq. apply String.eqb_neq. Qed.

(** With unique ids, deleting the record at [i] leaves no record with its
    id. *)
Lemma delete_unique_id (products : list product) (i : nat) (old : product) :
  uniqueIds products -> products !! i = Some old ->
  Forall (fun p => id p <> id old) (delete i products).
Proof.
  unfold uniqueIds. revert i.
  induction products as [|x l IH]; intros [|i]; simpl; try discriminate.
  - intros Hu [= ->]. apply NoDup_cons in Hu as [Hx _].
    apply Forall_forall. intros p Hp Heq. apply Hx.
    rewrite list_elem_of_In, in_map_iff. exists p.
    rewrite <- list_elem_of_In. auto.
  - intros Hu Hi. apply NoDup_cons in Hu as [Hx Hu]. constructor.
    + intros Heq. apply Hx. rewrite list_elem_of_In, in_map_iff. exists old.
      split; [congruence|]. apply list_elem_of_In, list_elem_of_lookup. eauto.
    + apply (IH i Hu Hi).
Qed.

(** ** Errors of the write and id routes *)

(** X6.  An authenticated create or update (it is dispatched to the
    endpoint: the id of the path of a PUT can be percent-decoded) whose
    decoded body has a violation is answered 400 with all the violation
    messages, and the array is unchanged.  Validation comes before the
    lookup: on PUT this is the answer whether or not a record has the id
    of the path. *)
Theorem invalid_body_answers_400_before_lookup req uuid products e ps :
  routed req e ps ->
  e = CreateProduct \/ e = UpdateProduct ->
  x_api_key req = Some secret ->
  validationErrors (req_body req) <> [] ->
  router req uuid products =
    ({| status := 400;
        payload := ValidationBody "Validation failed"
                     (validationErrors (req_body req)) |},
     products).
Proof.
  intros Hr He Hk Hv. rewrite (router_routed _ _ _ _ _ Hr).
  destruct He as [-> | ->]; simpl;
    rewrite (authMiddleware_accepts _ Hk), (validateProduct_rejects _ Hv);
    reflexivity.
Qed.

Lemma invalid_body_answers_400_before_lookup_witness :
  router putEmptyBodyUnknownId "" seed =
    ({| status := 400;
        payload := ValidationBody "Validation failed"
                     (validationErrors (req_body putEmptyBodyUnknownId)) |},
     seed).
Proof.
  apply (invalid_body_answers_400_before_lookup
           putEmptyBodyUnknownId "" seed UpdateProduct [("id", "no-such-id")]).
  - dispatched.
  - right. reflexivity.
  - reflexivity.
  - vm_compute. discriminate.
Defined.

(** X7.  A GET, an authenticated DELETE, or an authenticated PUT with a
    valid body, for an id that no record has, is answered 404 with the
    message [Product with ID <id> not found], where [<id>] is the
    percent-decoded third segment of the path, and the array is
    unchanged. *)
Theorem unknown_id_answers_404 req uuid products e ps :
  routed req e ps ->
  e = GetProduct \/
  (e = DeleteProduct /\ x_api_key req = Some secret) \/
  (e = UpdateProduct /\ x_api_key req = Some secret /\
   validationErrors (req_body req) = []) ->
  Forall (fun p => Some (id p) <> param "id" ps) products ->
  exists a b x v rest,
    req_path req = a :: b :: x :: rest /\
    decoded x = Some v /\
    router req uuid products =
      ({| status := 404;
          payload := ErrorBody ("Product with ID " ++ v ++ " not found") |},
       products).
Proof.
  intros Hr He Hno.
  destruct (routed_id_param req e ps Hr)
    as (a & b & x & v & rest & Hpath & _ & _ & Hv & _ & Hx).
  { destruct He as [-> | [[-> _] | [-> _]]]; auto. }
  exists a, b, x, v, rest. split; [exact Hpath|]. split; [exact Hv|].
  assert (Hf : Forall (fun p => hasId (param "id" ps) p = false) products).
  { rewrite Hx in *. eapply Forall_impl; [exact Hno|]. intros p Hp.
    apply hasId_false. congruence. }
  rewrite (router_routed _ _ _ _ _ Hr).
  destruct He as [-> | [[-> Hk] | [-> [Hk Hv']]]]; simpl.
  - unfold getProductById. rewrite (find_None_Forall _ _ Hf).
    unfold notFoundMessage. rewrite Hx. reflexivity.
  - rewrite (authMiddleware_accepts _ Hk). unfold deleteProduct.
    rewrite (findIndex_None _ _ Hf). unfold notFoundMessage. rewrite Hx.
    reflexivity.
  - rewrite (authMiddleware_accepts _ Hk), (validateProduct_accepts _ Hv').
    unfold updateProduct. rewrite (findIndex_None _ _ Hf).
    unfold notFoundMessage. rewrite Hx. reflexivity.
Qed.

Lemma unknown_id_answers_404_witness :
  exists a b x v rest,
    req_path (getById "9") = a :: b :: x :: rest /\
    decoded x = Some v /\
    router (getById "9") "" seed =
      ({| status := 404;
          payload := ErrorBody ("Product with ID " ++ v ++ " not found") |},
       seed).
Proof.
  apply (unknown_id_answers_404 (getById "9") "" seed GetProduct [("id", "9")]).
  - dispatched.
  - left. reflexivity.
  - unfold seed. repeat constructor; simpl; discriminate.
Defined.

(** ** Delete *)

(** X8.  An authenticated DELETE for an id that a record has is answered
    200 with the first record that has this id, and removes exactly that
    record: the array is one shorter, the records before it keep their
    index and the records after it move down by one.  The body is not
    validated. *)
Theorem delete_removes_first_record_with_id req uuid products ps i :
  routed req DeleteProduct ps ->
  x_api_key req = Some secret ->
  findIndex (hasId (param "id" ps)) products = Some i ->
  exists old,
    products !! i = Some old /\
    param "id" ps = Some (id old) /\
    (forall j y, (j < i)%nat -> products !! j = Some y ->
                 Some (id y) <> param "id" ps) /\
    fst (router req uuid products) =
      {| status := 200;
         payload := MessageBody "Product deleted successfully" old |} /\
    S (length (snd (router req uuid products))) = length products /\
    (forall j, (j < i)%nat ->
               snd (router req uuid products) !! j = products !! j) /\
    (forall j, (i <= j)%nat ->
               snd (router req uuid products) !! j = products !! S j).
Proof.
  intros Hr Hk Hi.
  destruct (findIndex_Some _ _ _ Hi) as (old & Hold & Hid).
  pose proof (hasId_true _ _ Hid) as Hp.
  exists old. split; [exact Hold|]. split; [exact Hp|]. split.
  { intros j y Hj Hy Heq. pose proof (findIndex_first _ _ _ Hi j y Hj Hy) as Hf.
    rewrite <- Heq in Hf. unfold hasId, strictEq in Hf.
    rewrite String.eqb_refl in Hf. discriminate. }
  rewrite (router_routed _ _ _ _ _ Hr). simpl.
  rewrite (authMiddleware_accepts _ Hk). unfold deleteProduct.
  rewrite Hi, Hold. simpl. split; [reflexivity|]. split.
  - rewrite length_delete by eauto. apply lookup_lt_Some in Hold. lia.
  - split; intros j Hj.
    + apply list_lookup_delete_lt, Hj.
    + apply list_lookup_delete_ge, Hj.
Qed.

Lemma delete_removes_first_record_with_id_witness :
  exists old,
    seed !! 2%nat = Some old /\
    param "id" [("id", "3")] = Some (id old) /\
    (forall j y, (j < 2)%nat -> seed !! j = Some y ->
                 Some (id y) <> param "id" [("id", "3")]) /\
    fst (router (deleteById "3") "" seed) =
      {| status := 200;
         payload := MessageBody "Product deleted successfully" old |} /\
    S (length (snd (router (deleteById "3") "" seed))) = length seed /\
    (forall j, (j < 2)%nat ->
               snd (router (deleteById "3") "" seed) !! j = seed !! j) /\
    (forall j, (2 <= j)%nat ->
               snd (router (deleteById "3") "" seed) !! j = seed !! S j).
Proof.
  apply (delete_removes_first_record_with_id
           (deleteById "3") "" seed [("id", "3")] 2).
  - dispatched.
  - reflexivity.
  - reflexivity.
Defined.

(** X9.  When ids are unique, after a successful DELETE of an id a GET of
    that id is answered 404, and a GET of any other id is answered as
    before the delete. *)
Theorem delete_then_get req uuid products ps x getReq uuid' gps :
  uniqueIds products ->
  routed req DeleteProduct ps ->
  x_api_key req = Some secret ->
  param "id" ps = Some x ->
  In x (map id products) ->
  routed getReq GetProduct gps ->
  (param "id" gps = Some x ->
   fst (router getReq uuid' (snd (router req uuid products))) =
     {| status := 404;
        payload := ErrorBody ("Product with ID " ++ x ++ " not found") |}) /\
  (param "id" gps <> Some x ->
   fst (router getReq uuid' (snd (router req uuid products))) =
   fst (router getReq uuid' products)).
Proof.
  intros Hu Hr Hk Hx Hin Hg.
  apply in_map_iff in Hin as (p0 & Hp0 & Hin).
  destruct (findIndex_exists (hasId (param "id" ps)) products p0 Hin) as [i Hi].
  { rewrite Hx. apply hasId_Some, Hp0. }
  destruct (findIndex_Some _ _ _ Hi) as (old & Hold & Hid).
  pose proof (hasId_true _ _ Hid) as Hp. rewrite Hx in Hp. injection Hp as Hp.
  assert (Hs : snd (router req uuid products) = delete i products).
  { rewrite (router_routed _ _ _ _ _ Hr). simpl.
    rewrite (authMiddleware_accepts _ Hk). unfold deleteProduct.
    rewrite Hi, Hold. reflexivity. }
  rewrite Hs, !(router_routed _ _ _ _ _ Hg). simpl. unfold getProductById.
  split.
  - intros Hgx. rewrite Hgx.
    rewrite find_None_Forall; [unfold notFoundMessage; reflexivity|].
    eapply Forall_impl; [apply (delete_unique_id products i old Hu Hold)|].
    intros p Hne. apply hasId_false. congruence.
  - intros Hgx. rewrite (find_delete_other _ products i old Hold);
      [destruct (List.find _ products); reflexivity|].
    destruct (param "id" gps) as [y|]; [|reflexivity].
    apply hasId_false. congruence.
Qed.

Lemma delete_then_get_witness :
  (param "id" [("id", "3")] = Some "3" ->
   fst (router (getById "3") "" (snd (router (deleteById "3") "" seed))) =
     {| status := 404;
        payload := ErrorBody ("Product with ID " ++ "3" ++ " not found") |}) /\
  (param "id" [("id", "3")] <> Some "3" ->
   fst (router (getById "3") "" (snd (router (deleteById "3") "" seed))) =
   fst (router (getById "3") "" seed)).
Proof.
  apply (delete_then_get (deleteById "3") "" seed [("id", "3")] "3"
           (getById "3") "" [("id", "3")]).
  - unfold uniqueIds, seed. simpl.
    repeat (constructor; [rewrite list_elem_of_In; simpl; intuition discriminate|]).
    constructor.
  - dispatched.
  - reflexivity.
  - reflexivity.
  - simpl. auto.
  - dispatched.
Defined.

(** ** Update *)

(** X10.  After a successful PUT, a GET of the same id returns the record
    that the PUT answered with. *)
Theorem update_then_get_returns_updated_record
    req uuid products ps i getReq uuid' gps :
  routed req UpdateProduct ps ->
  x_api_key req = Some secret ->
  validationErrors (req_body req) = [] ->
  findIndex (hasId (param "id" ps)) products = Some i ->
  routed getReq GetProduct gps ->
  param "id" gps = param "id" ps ->
  exists new,
    fst (router req uuid products) =
      {| status := 200;
         payload := MessageBody "Product updated successfully" new |} /\
    router getReq uuid' (snd (router req uuid products)) =
      ({| status := 200; payload := ProductBody new |},
       snd (router req uuid products)).
Proof.
  intros Hr Hk Hv Hi Hg Hid.
  destruct (update_accepted req uuid products ps Hk Hv i Hr Hi)
    as (old & n & d & p & c & Hold & Hp & _ & _ & _ & _ & _ & Heq).
  eexists. rewrite Heq. simpl. split; [reflexivity|].
  apply (get_found _ _ _ gps); [exact Hg|]. rewrite Hid.
  apply findIndex_insert; [exact Hi|]. rewrite Hp. apply hasId_Some. reflexivity.
Qed.

Lemma update_then_get_returns_updated_record_witness :
  exists new,
    fst (router putLaptop "" seed) =
      {| status := 200;
         payload := MessageBody "Product updated successfully" new |} /\
    router (getById "1") "" (snd (router putLaptop "" seed)) =
      ({| status := 200; payload := ProductBody new |},
       snd (router putLaptop "" seed)).
Proof.
  apply (update_then_get_returns_updated_record
           putLaptop "" seed [("id", "1")] 0 (getById "1") "" [("id", "1")]).
  - dispatched.
  - reflexivity.
  - vm_compute. reflexivity.
  - reflexivity.
  - dispatched.
  - reflexivity.
Defined.

(** X11.  PUT is idempotent: sending the same update request a second
    time gives the same response and leaves the array as the first one
    left it, whether the request is accepted or rejected. *)
Theorem put_is_idempotent req uuid uuid' products ps :
  routed req UpdateProduct ps ->
  router req uuid' (snd (router req uuid products)) = router req uuid products.
Proof.
  intros Hr.
  destruct (authMiddleware req) as [res|] eqn:Ea.
  { rewrite !(router_routed _ _ _ _ _ Hr). simpl. rewrite Ea. reflexivity. }
  destruct (validateProduct req) as [res|] eqn:Ev.
  { rewrite !(router_routed _ _ _ _ _ Hr). simpl. rewrite Ea, Ev. reflexivity. }
  apply authMiddleware_None in Ea. apply validateProduct_None in Ev.
  destruct (findIndex (hasId (param "id" ps)) products) as [i|] eqn:Hi.
  - destruct (update_accepted req uuid products ps Ea Ev i Hr Hi)
      as (old & n & d & p & c & Hold & Hp & Hn & Hd & Hpr & Hc & _ & Heq).
    rewrite Heq. cbn [snd].
    set (new := updated old n d p c (body_inStock (req_body req))) in *.
    assert (Hi' : findIndex (hasId (param "id" ps)) (<[i := new]> products)
                  = Some i).
    { apply findIndex_insert; [exact Hi|]. rewrite Hp. apply hasId_Some.
      reflexivity. }
    destruct (update_accepted req uuid' (<[i := new]> products) ps Ea Ev i Hr Hi')
      as (old' & n' & d' & p' & c' & Hold' & _ & Hn' & Hd' & Hpr' & Hc' & _ & Heq').
    rewrite Heq'. rewrite list_lookup_insert_eq in Hold'
      by (eapply lookup_lt_Some, Hold).
    injection Hold' as <-.
    rewrite Hn in Hn'. rewrite Hd in Hd'. rewrite Hpr in Hpr'. rewrite Hc in Hc'.
    injection Hn' as <-. injection Hd' as <-. injection Hpr' as <-.
    injection Hc' as <-.
    change (updated new n d p c (body_inStock (req_body req))) with new.
    rewrite list_insert_insert_eq. reflexivity.
  - assert (Hnf : forall u,
        router req u products =
          ({| status := 404;
              payload := ErrorBody (notFoundMessage (param "id" ps)) |},
           products)).
    { intros u. rewrite (router_routed _ _ _ _ _ Hr). simpl.
      rewrite (authMiddleware_accepts _ Ea), (validateProduct_accepts _ Ev).
      unfold updateProduct. rewrite Hi. reflexivity. }
    rewrite (Hnf uuid). cbn [snd]. apply Hnf.
Qed.

Lemma put_is_idempotent_witness :
  router putLaptop "b" (snd (router putLaptop "a" seed)) = router putLaptop "a" seed.
Proof.
  apply (put_is_idempotent putLaptop "a" "b" seed [("id", "1")]).
  dispatched.
Defined.

(** ** The filters of the listing *)




Lemma In_filterByCategory c (l : list product) p :
  In p (filterByCategory c l) <->
  In p l /\
  forall c' : string, c = Some (QStr c') -> c' <> "" ->
                      toLowerCase (category p) = toLowerCase c'.
Proof.
  unfold filterByCategory. destruct c as [[c| |]|].
  - destruct (String.eqb_spec c "") as [-> | Hne]; simpl.
    + split; [intros H; split; [exact H|]; intros c' [= <-] Hc; contradiction
             | tauto].
    + rewrite filter_In. unfold strictEq. rewrite String.eqb_eq. split.
      * intros [H1 H2]. split; [exact H1|]. intros c' [= <-] _. exact H2.
      * intros [H1 H2]. split; [exact H1|]. apply (H2 c eq_refl Hne).
  - split; [intros H; split; [exact H|]; discriminate | tauto].
  - split; [intros H; split; [exact H|]; discriminate | tauto].
  - split; [intros H; split; [exact H|]; discriminate | tauto].
Qed.

Lemma In_filterByStock s (l : list product) p :
  In p (filterByStock s l) <->
  In p l /\ forall s' : qvalue, s = Some s' -> (inStock p = true <-> s' = QStr "true").
Proof.
  unfold filterByStock. destruct s as [s|].
  - cbv zeta. rewrite filter_In. split.
    + intros [H1 H2]. split; [exact H1|]. intros s' [= <-].
      rewrite <- queryIs_spec.
      destruct (queryIs s "true"), (inStock p); simpl in H2;
        intuition congruence.
    + intros [H1 H2]. split; [exact H1|]. specialize (H2 s eq_refl).
      rewrite <- queryIs_spec in H2.
      destruct (queryIs s "true"), (inStock p); simpl;
        intuition congruence.
  - split; [intros H; split; [exact H|]; discriminate | tauto].
Qed.

(** X12.  The products of a listing are taken, in the order of the
    array, from the records that pass both filters: a record passes when
    its category equals the [category] parameter without regard to letter
    case (an absent or empty parameter passes every record) and its
    [inStock] is [true] exactly when the [inStock] parameter is the string
    [true] (an absent parameter passes every record). *)
Theorem listing_shows_only_matching_records req uuid products ps :
  routed req ListProducts ps ->
  sublist (listed (fst (router req uuid products)))
          (filteredProducts (req_query req) products) /\
  sublist (filteredProducts (req_query req) products) products /\
  forall p,
    In p (filteredProducts (req_query req) products) <->
    In p products /\
    (forall c : string,
        query_category (req_query req) = Some (QStr c) -> c <> "" ->
        toLowerCase (category p) = toLowerCase c) /\
    (forall s : qvalue,
        query_inStock (req_query req) = Some s ->
        (inStock p = true <-> s = QStr "true")).
Proof.
  intros Hr. split; [|split].
  - rewrite (getProducts_routed _ _ _ _ Hr). cbv zeta.
    destruct (categoryThrows _ _); [apply sublist_nil_l|].
    destruct (_ || _); simpl.
    + apply sublist_nil_l.
    + apply slice_sublist.
  - unfold filteredProducts.
    etransitivity; [apply filterByStock_sublist | apply filterByCategory_sublist].
  - intros p. unfold filteredProducts.
    rewrite In_filterByStock, In_filterByCategory. tauto.
Qed.

Lemma listing_shows_only_matching_records_witness :
  sublist (listed (fst (router getElectronicsInStock "" seed)))
          (filteredProducts (req_query getElectronicsInStock) seed) /\
  sublist (filteredProducts (req_query getElectronicsInStock) seed) seed /\
  forall p,
    In p (filteredProducts (req_query getElectronicsInStock) seed) <->
    In p seed /\
    (forall c : string,
        query_category (req_query getElectronicsInStock) = Some (QStr c) ->
        c <> "" -> toLowerCase (category p) = toLowerCase c) /\
    (forall s : qvalue,
        query_inStock (req_query getElectronicsInStock) = Some s ->
        (inStock p = true <-> s = QStr "true")).
Proof.
  apply (listing_shows_only_matching_records getElectronicsInStock "" seed []).
  dispatched.
Defined.


(** ** Pages *)

(** For a finite page and limit, on an array of fewer than [2^53]
    elements, the rounding of the two products does not show: the window
    is the one of the exact indices. *)
Lemma finite_window {A} (p l : Z) (filtered : list A) :
  (1 <= p)%Z -> (1 <= l)%Z -> (Z.of_nat (length filtered) < 2 ^ 53)%Z ->
  slice (mul (sub (Some (Int p)) (Some (Int 1))) (Some (Int l)))
        (mul (Some (Int p)) (Some (Int l))) filtered
    = take (Z.to_nat l) (drop (Z.to_nat ((p - 1) * l)) filtered) /\
  ltb (mul (Some (Int p)) (Some (Int l)))
      (Some (Int (Z.of_nat (length filtered))))
    = (p * l <? Z.of_nat (length filtered))%Z.
Proof.
  intros Hp Hl Hlen.
  assert (Hflen : (0 <= Z.of_nat (length filtered) < 2 ^ 53)%Z) by lia.
  assert (Hstart : approximates
            (mul (sub (Some (Int p)) (Some (Int 1))) (Some (Int l)))
            ((p - 1) * l)).
  { apply approximates_mul; [|lia|lia]. apply approximates_round. lia. }
  assert (Hend : approximates (mul (Some (Int p)) (Some (Int l))) (p * l)).
  { apply approximates_round. nia. }
  split.
  - apply list_eq. intros i. unfold slice.
    rewrite (clampIndex_approximates _ _ _ Hstart ltac:(nia) Hflen),
      (clampIndex_approximates _ _ _ Hend ltac:(nia) Hflen).
    rewrite window_lookup by nia.
    replace (p * l - (p - 1) * l)%Z with l by lia.
    destruct (Z.ltb_spec (Z.of_nat i) l).
    + rewrite lookup_take_lt by lia. rewrite lookup_drop. reflexivity.
    + rewrite lookup_take_ge by lia. reflexivity.
  - apply (ltb_approximates _ _ _ Hend ltac:(nia) Hflen).
Qed.


Lemma filtered_length_bound q (products : list product) :
  (Z.of_nat (length products) < 2 ^ 32)%Z ->
  (Z.of_nat (length (filteredProducts q products)) < 2 ^ 53)%Z.
Proof.
  intros H. pose proof (filteredProducts_sublist q products) as Hs.
  apply sublist_length in Hs.
  assert (2 ^ 32 < 2 ^ 53)%Z by (apply Z.pow_lt_mono_r; lia). lia.
Qed.



(** X15.  In a listing that is answered 200 the page and the limit are
    not below 1.  When both are finite, on an array of fewer than [2^32]
    records, the metadata agree with each other and with the products:
    [totalPages] is a finite number, [hasNextPage] holds exactly when
    [currentPage < totalPages], [hasPrevPage] exactly when
    [currentPage > 1], the page is empty exactly when
    [currentPage > totalPages], it never has more than [productsPerPage]
    products and has exactly that many when there is a next page. *)
Theorem listing_metadata_is_consistent req uuid products ps :
  routed req ListProducts ps ->
  (Z.of_nat (length products) < 2 ^ 32)%Z ->
  status (fst (router req uuid products)) = 200%nat ->
  exists items pg,
    fst (router req uuid products) =
      {| status := 200; payload := ProductsBody items pg |} /\
    ltb (Some (currentPage pg)) (Some (Int 1)) = false /\
    ltb (Some (productsPerPage pg)) (Some (Int 1)) = false /\
    forall p l : Z,
      currentPage pg = Int p -> productsPerPage pg = Int l ->
      exists t,
        totalPages pg = Some (Int t) /\
        (1 <= p)%Z /\ (1 <= l)%Z /\
        (hasNextPage pg = true <-> (p < t)%Z) /\
        (hasPrevPage pg = true <-> (1 < p)%Z) /\
        (items = [] <-> (t < p)%Z) /\
        (Z.of_nat (length items) <= l)%Z /\
        (hasNextPage pg = true -> Z.of_nat (length items) = l).
Proof.
  intros Hr Hlen. rewrite (getProducts_routed _ _ _ _ Hr). cbv zeta.
  set (l := filteredProducts (req_query req) products).
  set (page := orDefault (parseInt (query_page (req_query req))) 1%Z).
  set (limit := orDefault (parseInt (query_limit (req_query req))) 10%Z).
  destruct (categoryThrows _ _); [discriminate|].
  destruct (ltb (Some page) (Some (Int 1))) eqn:Hp; [discriminate|].
  destruct (ltb (Some limit) (Some (Int 1))) eqn:Hl; [discriminate|].
  cbn [orb fst]. intros _. eexists. eexists. split; [reflexivity|].
  cbn [currentPage productsPerPage totalPages hasNextPage hasPrevPage].
  split; [exact Hp|]. split; [exact Hl|].
  intros p lim Ep El. rewrite Ep, El in *.
  simpl in Hp, Hl. apply Z.ltb_ge in Hp, Hl.
  assert (Hll : (0 <= Z.of_nat (length l) < 2 ^ 32)%Z).
  { pose proof (sublist_length _ _
                  (filteredProducts_sublist (req_query req) products)).
    fold l in H. lia. }
  assert (Hlim : (0 < lim < 2 ^ 1024)%Z).
  { split; [lia|].
    pose proof (orDefault_bound _ 10 lim ltac:(vm_compute; reflexivity) El).
    lia. }
  destruct (ceilDiv_spec (Z.of_nat (length l)) lim Hll Hlim) as (t & Ht & Hc).
  exists t. split; [exact Ht|]. split; [exact Hp|]. split; [exact Hl|].
  destruct (finite_window p lim l Hp Hl (filtered_length_bound _ _ Hlen))
    as [-> ->].
  assert (Hlen' : length (take (Z.to_nat lim) (drop (Z.to_nat ((p - 1) * lim)) l))
                  = Nat.min (Z.to_nat lim) (length l - Z.to_nat ((p - 1) * lim)))
    by (rewrite length_take, length_drop; reflexivity).
  split.
  { rewrite Z.ltb_lt. nia. }
  split; [apply Z.ltb_lt|]. split.
  { rewrite <- length_zero_iff_nil, Hlen'. nia. }
  split; [rewrite Hlen'; nia|].
  rewrite Z.ltb_lt, Hlen'. nia.
Qed.

Lemma listing_metadata_is_consistent_witness :
  exists items pg,
    fst (router getSecondPage "" seed) =
      {| status := 200; payload := ProductsBody items pg |} /\
    ltb (Some (currentPage pg)) (Some (Int 1)) = false /\
    ltb (Some (productsPerPage pg)) (Some (Int 1)) = false /\
    forall p l : Z,
      currentPage pg = Int p -> productsPerPage pg = Int l ->
      exists t,
        totalPages pg = Some (Int t) /\
        (1 <= p)%Z /\ (1 <= l)%Z /\
        (hasNextPage pg = true <-> (p < t)%Z) /\
        (hasPrevPage pg = true <-> (1 < p)%Z) /\
        (items = [] <-> (t < p)%Z) /\
        (Z.of_nat (length items) <= l)%Z /\
        (hasNextPage pg = true -> Z.of_nat (length items) = l).
Proof.
  apply (listing_metadata_is_consistent getSecondPage "" seed []).
  - dispatched.
  - vm_compute. reflexivity.
  - vm_compute. reflexivity.
Defined.

(** ** Stock counts of the statistics *)

Lemma fold_stock_counts (l : list product) (acc : Stats.t) :
  Stats.inStock (fold_left statsStep l acc)
  = (Stats.inStock acc + length (List.filter inStock l))%nat /\
  Stats.outOfStock (fold_left statsStep l acc)
  = (Stats.outOfStock acc + length (List.filter (fun p => negb (inStock p)) l))%nat.
Proof.
  revert acc. induction l as [|p l IH]; intros acc; simpl; [lia|].
  destruct (IH (statsStep acc p)) as [-> ->]. simpl.
  destruct (inStock p); simpl; lia.
Qed.

Lemma filter_length_split {A} (f : A -> bool) (l : list A) :
  (length (List.filter f l) + length (List.filter (fun x => negb (f x)) l))%nat
  = length l.
Proof.
  induction l as [|x l IH]; simpl; [reflexivity|].
  destruct (f x); simpl; lia.
Qed.

(** X16.  In the statistics [inStock] is the number of records whose
    [inStock] is true, [outOfStock] the number of the others, and the two
    add up to [total]. *)
Theorem stats_stock_counts (products : list product) :
  Stats.inStock (computeStats products) = length (List.filter inStock products) /\
  Stats.outOfStock (computeStats products)
    = length (List.filter (fun p => negb (inStock p)) products) /\
  (Stats.inStock (computeStats products) + Stats.outOfStock (computeStats products))%nat
    = Stats.total (computeStats products).
Proof.
  unfold computeStats. cbn [Stats.inStock Stats.outOfStock Stats.total].
  destruct (fold_stock_counts products (statsInit products)) as [-> ->].
  rewrite fold_total. simpl. repeat split. apply filter_length_split.
Qed.

(** ** The status of the write routes *)

Lemma findIndex_existsb {A} (f : A -> bool) (l : list A) :
  existsb f l = match findIndex f l with Some _ => true | None => false end.
Proof.
  induction l as [|x l IH]; simpl; [reflexivity|].
  destruct (f x); simpl; [reflexivity|]. rewrite IH.
  destruct (findIndex f l); reflexivity.
Qed.

(** X17.  A request on a write route (its id, if the route has one, can
    be percent-decoded) whose body is not well-formed JSON is answered
    400.  Otherwise its status follows from three checks in this order:
    401 unless [x-api-key] is the secret; then, on create and update, 400
    when the body has a violation; then 201 on create, and on update and
    delete 200 when a record has the decoded id of the path and 404
    otherwise.  No other status is answered; in particular the handlers
    do not fail behind the validation. *)
Theorem write_route_status req uuid products e ps :
  routed req e ps ->
  e = CreateProduct \/ e = UpdateProduct \/ e = DeleteProduct ->
  status (fst (app (Malformed req) uuid products)) = 400%nat /\
  status (fst (app (Decoded req) uuid products)) = writeStatus e ps req products.
Proof.
  intros Hr He. split; [reflexivity|]. cbn [app].
  rewrite (router_routed _ _ _ _ _ Hr). unfold writeStatus.
  case_bool_decide as Hk; cbn [negb].
  2: { destruct He as [-> | [-> | ->]]; simpl;
         rewrite authMiddleware_rejects by (right; exact Hk); reflexivity. }
  destruct He as [-> | [-> | ->]]; simpl;
    rewrite (authMiddleware_accepts _ Hk).
  - destruct (validationErrors (req_body req)) as [|m ms] eqn:Ev.
    + rewrite (validateProduct_accepts _ Ev). simpl.
      destruct (validated_fields _ Ev)
        as (n & d & p & c & Hn & _ & Hd & _ & Hp & _ & Hc & _ & _).
      unfold createProduct. rewrite Hn, Hd, Hp, Hc. reflexivity.
    + rewrite validateProduct_rejects by (rewrite Ev; discriminate). reflexivity.
  - destruct (validationErrors (req_body req)) as [|m ms] eqn:Ev.
    + rewrite (validateProduct_accepts _ Ev). simpl.
      destruct (validated_fields _ Ev)
        as (n & d & p & c & Hn & _ & Hd & _ & Hp & _ & Hc & _ & _).
      unfold updateProduct. rewrite findIndex_existsb.
      destruct (findIndex _ products) as [i|] eqn:Hi; [|reflexivity].
      destruct (findIndex_Some _ _ _ Hi) as (old & -> & _).
      rewrite Hn, Hd, Hp, Hc. reflexivity.
    + rewrite validateProduct_rejects by (rewrite Ev; discriminate). reflexivity.
  - unfold deleteProduct. rewrite findIndex_existsb.
    destruct (findIndex _ products) as [i|] eqn:Hi; [|reflexivity].
    destruct (findIndex_Some _ _ _ Hi) as (old & -> & _). reflexivity.
Qed.

Lemma write_route_status_witness :
  status (fst (app (Malformed (deleteById "9")) "" seed)) = 400%nat /\
  status (fst (app (Decoded (deleteById "9")) "" seed))
  = writeStatus DeleteProduct [("id", "9")] (deleteById "9") seed.
Proof.
  apply (write_route_status (deleteById "9") "" seed DeleteProduct [("id", "9")]).
  - dispatched.
  - right. right. reflexivity.
Defined.

Example delete_unknown_id_status :
  writeStatus DeleteProduct [("id", "9")] (deleteById "9") seed = 404%nat.
Proof. reflexivity. Qed.

(** ** Requests that match no route *)









(** ** Search terms *)

Lemma string_app_assoc (a b c : string) : (a ++ b) ++ c = a ++ (b ++ c).
Proof.
  induction a as [|x a IH]; [reflexivity|].
  change (String x ((a ++ b) ++ c) = String x (a ++ (b ++ c))). f_equal. exact IH.
Qed.

Lemma string_app_nil_r (a : string) : a ++ "" = a.
Proof.
  induction a as [|x a IH]; [reflexivity|].
  change (String x (a ++ "") = String x a). f_equal. exact IH.
Qed.

Lemma occursIn_refl (s : string) : occursIn s s.
Proof. exists "", "". simpl. rewrite string_app_nil_r. reflexivity. Qed.

Lemma occursIn_trans (a b c : string) :
  occursIn a b -> occursIn b c -> occursIn a c.
Proof.
  intros (p1 & s1 & ->) (p2 & s2 & ->).
  exists (p2 ++ p1), (s1 ++ s2). rewrite !string_app_assoc. reflexivity.
Qed.

Lemma occursIn_toLowerCase (a b : string) :
  occursIn a b -> occursIn (toLowerCase a) (toLowerCase b).
Proof.
  intros (p & s & ->). exists (toLowerCase p), (toLowerCase s).
  rewrite !toLowerCase_app. reflexivity.
Qed.

Lemma occursIn_nonempty (a b : string) : occursIn a b -> a <> "" -> b <> "".
Proof.
  intros (p & s & ->) Ha Hb. destruct p; [|discriminate].
  destruct a; [contradiction | discriminate].
Qed.

Lemma filter_sublist_impl {A} (f g : A -> bool) (l : list A) :
  (forall x, f x = true -> g x = true) ->
  sublist (List.filter f l) (List.filter g l).
Proof.
  intros H. induction l as [|x l IH]; simpl; [constructor|].
  destruct (f x) eqn:Ef.
  - rewrite (H x Ef). constructor. exact IH.
  - destruct (g x); [apply sublist_cons|]; exact IH.
Qed.

Lemma matchesTerm_spec (t : string) (p : product) :
  matchesTerm t p = true <->
  occursIn t (toLowerCase (name p)) \/ occursIn t (toLowerCase (description p)).
Proof. unfold matchesTerm. rewrite orb_true_iff, !includes_spec. reflexivity. Qed.

Lemma found_search req uuid products ps (q : string) :
  routed req SearchProducts ps ->
  query_q (req_query req) = Some (QStr q) -> q <> "" ->
  found (fst (router req uuid products))
  = List.filter (matchesTerm (toLowerCase q)) products.
Proof.
  intros Hr Hq Hne. rewrite (searchProducts_routed _ _ _ _ Hr), Hq.
  apply String.eqb_neq in Hne. rewrite Hne. reflexivity.
Qed.

(** X19.  A longer search term narrows the results: when the term of one
    search occurs in the term of another, without regard to letter case,
    every result of the search for the longer term is a result of the
    search for the shorter one, in the same order.  Two terms with the
    same lower-case form have the same results. *)
Theorem longer_search_term_narrows_results
    req1 req2 uuid1 uuid2 products ps1 ps2 (q1 q2 : string) :
  routed req1 SearchProducts ps1 ->
  routed req2 SearchProducts ps2 ->
  query_q (req_query req1) = Some q1 -> q1 <> "" ->
  query_q (req_query req2) = Some q2 ->
  occursIn (toLowerCase q1) (toLowerCase q2) ->
  sublist (found (fst (router req2 uuid2 products)))
          (found (fst (router req1 uuid1 products))) /\
  (toLowerCase q1 = toLowerCase q2 ->
   found (fst (router req2 uuid2 products))
   = found (fst (router req1 uuid1 products))).
Proof.
  intros Hr1 Hr2 Hq1 Hne1 Hq2 Hocc.
  assert (Hne2 : q2 <> "").
  { intros ->. apply (occursIn_nonempty _ _ Hocc); [|reflexivity].
    intros H. apply Hne1, toLowerCase_empty, H. }
  rewrite (found_search _ _ _ _ _ Hr1 Hq1 Hne1),
    (found_search _ _ _ _ _ Hr2 Hq2 Hne2).
  split.
  - apply filter_sublist_impl. intros p. rewrite !matchesTerm_spec.
    intros [H | H]; [left | right]; exact (occursIn_trans _ _ _ Hocc H).
  - intros ->. reflexivity.
Qed.

Lemma longer_search_term_narrows_results_witness :
  sublist (found (fst (router (getSearch "Gaming Chair") "" seed)))
          (found (fst (router (getSearch "gaming") "" seed))) /\
  (toLowerCase "gaming" = toLowerCase "Gaming Chair" ->
   found (fst (router (getSearch "Gaming Chair") "" seed))
   = found (fst (router (getSearch "gaming") "" seed))).
Proof.
  apply (longer_search_term_narrows_results
           (getSearch "gaming") (getSearch "Gaming Chair") "" "" seed [] []
           "gaming" "Gaming Chair").
  - dispatched.
  - dispatched.
  - reflexivity.
  - discriminate.
  - reflexivity.
  - exists "", " chair". reflexivity.
Defined.

(** X20.  A product that was just created is found by a search for its
    name: after an accepted create, the search for the trimmed submitted
    name has the created record among its results. *)
Theorem created_product_is_found_by_its_name
    req uuid products ps n searchReq uuid' sps :
  routed req CreateProduct ps ->
  x_api_key req = Some secret ->
  validationErrors (req_body req) = [] ->
  body_name (req_body req) = Some (VStr n) ->
  routed searchReq SearchProducts sps ->
  query_q (req_query searchReq) = Some (trim n) ->
  exists new,
    fst (router req uuid products) =
      {| status := 201;
         payload := MessageBody "Product created successfully" new |} /\
    name new = trim n /\
    In new (found (fst (router searchReq uuid' (snd (router req uuid products))))).
Proof.
  intros Hr Hk Hv Hn Hs Hq.
  destruct (create_accepted req uuid products ps Hk Hv Hr)
    as (n' & d & p & c & Hn' & _ & _ & _ & _ & Heq).
  rewrite Hn in Hn'. injection Hn' as <-.
  destruct (validated_fields _ Hv) as (n' & _ & _ & _ & Hn' & Hne & _).
  rewrite Hn in Hn'. injection Hn' as <-.
  eexists. rewrite Heq. cbn [fst snd]. split; [reflexivity|].
  split; [reflexivity|].
  rewrite (found_search _ _ _ _ _ Hs Hq Hne). apply filter_In. split.
  - apply in_app_iff. right. left. reflexivity.
  - apply matchesTerm_spec. left. simpl. apply occursIn_refl.
Qed.

Lemma created_product_is_found_by_its_name_witness :
  exists new,
    fst (router (postBody testBody) "u-6" seed) =
      {| status := 201;
         payload := MessageBody "Product created successfully" new |} /\
    name new = trim "Test" /\
    In new (found (fst (router (getSearch (trim "Test")) ""
                          (snd (router (postBody testBody) "u-6" seed))))).
Proof.
  apply (created_product_is_found_by_its_name
           (postBody testBody) "u-6" seed [] "Test"
           (getSearch (trim "Test")) "" []).
  - dispatched.
  - reflexivity.
  - vm_compute. reflexivity.
  - reflexivity.
  - dispatched.
  - reflexivity.
Defined.
